(** * Guest list, confirmation report and invitation broadcast

    A shallow embedding of [src/whatsapp/routers/sendMessage.router.ts]
    (the [MessageRouter] routes) and of the [Convidados] table created by
    [prisma/migrations/20240804224958_/migration.sql].

    - the table is a list of rows with a [SERIAL] counter; every Prisma call
      is one storage operation that may fail, and is recorded in a trace;
    - an [async] route handler is a computation in a state-and-exception
      monad: [await] is bind, a rejected promise is an exception;
    - [setTimeout] appends a timer to the list of pending timers;
    - [fetch] appends the request to the list of outbound gateway calls and
      settles the way the gateway decides. *)

From Stdlib Require Import List ZArith Lia Bool String Ascii Sorted.
From Stdlib Require Import DecimalString Permutation.
Import ListNotations.

Local Open Scope string_scope.
Local Open Scope Z_scope.

(** ** Promises: state and exceptions *)

Module Async.

(** An [async] computation over a state [St] that either throws an [E] or
    returns an [A]; the state reached is kept in both cases. *)
Definition M (St E A : Type) : Type := St -> (E + A) * St.

Definition ret {St E A} (a : A) : M St E A := fun s => (inr a, s).

Definition throw {St E A} (e : E) : M St E A := fun s => (inl e, s).

(** [await m] followed by [k]. *)
Definition bind {St E A B} (m : M St E A) (k : A -> M St E B) : M St E B :=
  fun s =>
    match m s with
    | (inl e, s') => (inl e, s')
    | (inr a, s') => k a s'
    end.

(** [p.then(f)] for a synchronous [f]. *)
Definition then_ {St E A B} (p : M St E A) (f : A -> M St E B) : M St E B :=
  bind p f.

(** [p.catch(h)]: a rejection is handed to [h], whose result fulfils the
    promise. *)
Definition catch {St E A} (p : M St E A) (h : E -> M St E A) : M St E A :=
  fun s =>
    match p s with
    | (inl e, s') => h e s'
    | (inr a, s') => (inr a, s')
    end.

(** [try { body } catch (error) { handler }]. *)
Definition try_catch {St E A} (body : M St E A) (handler : E -> M St E A)
  : M St E A := catch body handler.

(** [for (const x of xs) { await body(x) }]: the first exception leaves
    the loop. *)
Fixpoint for_of {St E A} (xs : list A) (body : A -> M St E unit)
  : M St E unit :=
  match xs with
  | [] => ret tt
  | x :: rest => bind (body x) (fun _ => for_of rest body)
  end.

End Async.

Declare Scope async_scope.
Delimit Scope async_scope with async.
Notation "x <- m ;; k" := (Async.bind m (fun x => k))
  (at level 61, m at next level, right associativity) : async_scope.
Notation "m ;;; k" := (Async.bind m (fun _ => k))
  (at level 61, right associativity) : async_scope.

Local Open Scope async_scope.

(** ** Exceptions and HTTP responses *)

(** Modelled from the spec: [BadRequestException] is declared in
    [src/exceptions], which is not among the sources; the spec calls it a
    client error carrying a descriptive message. [PrismaClientError] is a
    storage failure (the rejection of a Prisma call), [FetchError] a
    rejection of [fetch] or of [response.json()], and [ThrownError] any
    other JavaScript error. *)
Inductive Exception : Type :=
| BadRequestException (message : string)
| PrismaClientError (message : string)
| FetchError (message : string)
| ThrownError (message : string).

(** [error.message]. *)
Definition message_of (e : Exception) : string :=
  match e with
  | BadRequestException m | PrismaClientError m
  | FetchError m | ThrownError m => m
  end.

Module HttpStatus.
(** Modelled from the spec: [HttpStatus.CREATED] is declared in
    [src/app.module], which is not among the sources; the spec gives
    HTTP 201 for every route. *)
Definition CREATED : Z := 201.
End HttpStatus.

(** ** Values and columns *)

(** What a request gives for an optional key: nothing (the key is left
    out, [undefined]), [null], or a string. *)
Inductive Given : Type :=
| Undefined
| Null
| Text (s : string).

(** A byte that continues a UTF-8 character. *)
Definition continuation (a : ascii) : bool :=
  ((128 <=? nat_of_ascii a) && (nat_of_ascii a <? 192))%nat.

(** The first [n] characters of a UTF-8 string, and the rest. *)
Fixpoint take_chars (n : nat) (s : string) : string * string :=
  match s with
  | EmptyString => (EmptyString, EmptyString)
  | String a rest =>
      if continuation a
      then let (kept, excess) := take_chars n rest in (String a kept, excess)
      else match n with
           | O => (EmptyString, s)
           | S m => let (kept, excess) := take_chars m rest in (String a kept, excess)
           end
  end.

Fixpoint all_spaces (s : string) : bool :=
  match s with
  | EmptyString => true
  | String a rest => Ascii.eqb a " " && all_spaces rest
  end.

(** What a [VARCHAR(n)] column keeps of a string it accepts: the string,
    or its first [n] characters when the excess is made of spaces. A
    longer string with any other excess is refused by the storage, which
    is a failure of the operation. *)
Definition varchar (n : nat) (s : string) : string :=
  let (kept, excess) := take_chars n s in
  if all_spaces excess then kept else s.

(** ** The guest table *)

Module Prisma.

(** One row of ["Convidados"]; a nullable column is an [option]. *)
Record Convidados : Type := mkConvidados {
  id : Z;
  createdAt : option Z;
  updatedAt : option Z;
  nome : string;
  phone : string;
  confirmed : option bool;
  presente : option string;
  acompanhantes : list string
}.

(** The storage operations the routes issue. *)
Inductive Query : Type :=
| FindFirstPhone (phone : string)
| Create (nome phone : string) (presente : Given)
| FindMany
| FindManyConfirmed (confirmed : bool).

(** The table, the [SERIAL] counter, the current date, the outcome of the
    storage operations to come ([false]: the operation fails; none left:
    it succeeds) and the operations sent so far, oldest first. *)
Record Db : Type := mkDb {
  rows : list Convidados;
  serial : Z;
  today : Z;
  health : list bool;
  trace : list Query
}.

Definition empty : Db := mkDb [] 1 0 [] [].

Definition phones (d : Db) : list string := map phone (rows d).

(** The operation reaches the storage: it is recorded and its outcome is
    consumed. *)
Definition sent (q : Query) (d : Db) : Db :=
  mkDb (rows d) (serial d) (today d) (tl (health d)) (trace d ++ [q]).

Definition fails (d : Db) : bool :=
  match health d with
  | false :: _ => true
  | _ => false
  end.

Definition describe (q : Query) : string :=
  match q with
  | FindFirstPhone _ => "convidados.findFirst"
  | Create _ _ _ => "convidados.create"
  | FindMany | FindManyConfirmed _ => "convidados.findMany"
  end.

(** One awaited Prisma call: a failing one rejects and leaves the table
    as it is. *)
Definition query {A} (q : Query) (run : Db -> A * Db)
  : Async.M Db Exception A :=
  fun d =>
    if fails d then (inl (PrismaClientError (describe q)), sent q d)
    else let (a, d') := run (sent q d) in (inr a, d').

(** [prisma.convidados.findFirst({ where: { phone } })]. *)
Definition findFirst (p : string) : Async.M Db Exception (option Convidados) :=
  query (FindFirstPhone p)
    (fun d => (find (fun c => String.eqb (phone c) p) (rows d), d)).

(** The row [INSERT] builds: [id] from the sequence, [createdAt] from
    [CURRENT_TIMESTAMP], [nome] as [VARCHAR(100)] keeps it, [confirmed]
    from its [DEFAULT] since the statement gives no value, and [presente]
    from its [DEFAULT] when the key is left out, [NULL] when it is
    [null]. *)
Definition new_row (d : Db) (n p : string) (pr : Given) : Convidados :=
  mkConvidados (serial d) (Some (today d)) None (varchar 100 n) p (Some false)
    (match pr with
     | Undefined => Some "M"
     | Null => None
     | Text v => Some v
     end)
    [].

(** [prisma.convidados.create({ data: { nome, phone, presente } })]. *)
Definition create (n p : string) (pr : Given)
  : Async.M Db Exception Convidados :=
  query (Create n p pr)
    (fun d =>
       let c := new_row d n p pr in
       (c, mkDb (rows d ++ [c]) (serial d + 1) (today d) (health d) (trace d))).

(** [prisma.convidados.findMany()]. *)
Definition findMany : Async.M Db Exception (list Convidados) :=
  query FindMany (fun d => (rows d, d)).

(** [confirmed = b] in a [WHERE]: a [NULL] matches neither value. *)
Definition confirmed_is (b : bool) (c : Convidados) : bool :=
  match confirmed c with
  | Some v => Bool.eqb v b
  | None => false
  end.

(** [prisma.convidados.findMany({ where: { confirmed } })]. *)
Definition findMany_confirmed (b : bool) : Async.M Db Exception (list Convidados) :=
  query (FindManyConfirmed b) (fun d => (filter (confirmed_is b) (rows d), d)).

End Prisma.

(** ** Request and response bodies *)

Module Dto.
(** One element of the array posted to [registrarConvidados], when it is
    an object with a string [nome] and a string [phone]; [presente] may
    be left out or [null]. The route validates nothing, so it also
    receives bodies that are not such arrays: they are outside this
    type. *)
Record Convidado : Type := mkConvidado {
  nome : string;
  phone : string;
  presente : Given
}.
End Dto.

(** The object [confirmados] answers with. *)
Record Confirmacoes : Type := mkConfirmacoes {
  totalConvites : Z;
  totalConfirmados : Z;
  confirmados : list Prisma.Convidados
}.

Inductive Payload : Type :=
| JsonConvidados (convidados : list Prisma.Convidados)
| JsonConfirmacoes (r : Confirmacoes)
| JsonMessage (message : string).

(** [res.status(s).json(b)]. *)
Record Response : Type := mkResponse {
  status : Z;
  json : Payload
}.

(** ** The guest routes *)

(** The body of the [for await] loop of [registrarConvidados]. *)
Definition registrar (convidado : Dto.Convidado)
  : Async.M Prisma.Db Exception unit :=
  convidadoExist <- Prisma.findFirst (Dto.phone convidado) ;;
  match convidadoExist with
  | Some _ => Async.ret tt
  | None =>
      Prisma.create (Dto.nome convidado) (Dto.phone convidado)
        (Dto.presente convidado) ;;;
      Async.ret tt
  end.

(** [POST registrarConvidados]. *)
Definition registrarConvidados (body : list Dto.Convidado)
  : Async.M Prisma.Db Exception Response :=
  Async.for_of body registrar ;;;
  convidados <- Prisma.findMany ;;
  Async.ret (mkResponse HttpStatus.CREATED (JsonConvidados convidados)).

(** [convidados.filter((convidado) => convidado.confirmed)]: [null] and
    [false] are falsy. *)
Definition truthy (b : option bool) : bool :=
  match b with
  | Some true => true
  | _ => false
  end.

(** [GET confirmados]. *)
Definition confirmados_route : Async.M Prisma.Db Exception Response :=
  convidados <- Prisma.findMany ;;
  Async.ret
    (mkResponse HttpStatus.CREATED
       (JsonConfirmacoes
          (mkConfirmacoes
             (Z.of_nat (List.length convidados))
             (Z.of_nat (List.length (filter (fun convidado => truthy (Prisma.confirmed convidado)) convidados)))
             (filter (fun convidado => truthy (Prisma.confirmed convidado)) convidados)))).

(** Successive requests to [registrarConvidados], each run to its end
    before the next; the store is what the last one leaves. *)
Definition bulk_imports (calls : list (list Dto.Convidado)) (d : Prisma.Db)
  : Prisma.Db :=
  fold_left (fun d body => snd (registrarConvidados body d)) calls d.

(** ** The WhatsApp gateway *)

Module Gateway.

#[local] Unset Elimination Schemes.

(** The values [JSON.stringify] is given. *)
Inductive Json : Type :=
| JNum (n : Z)
| JStr (s : string)
| JObj (fields : list (string * Json)).

#[local] Set Elimination Schemes.

(** One call of [fetch(url, { method, headers, body, redirect })]. *)
Record Fetch : Type := mkFetch {
  url : string;
  method : string;
  headers : list (string * string);
  body : Json;
  redirect : string
}.

(** What the gateway does with a call: it cannot be reached ([fetch]
    rejects), or it answers, with an HTTP status and a body that is JSON
    or is not ([response.json()] rejects). [fetch] fulfils whatever the
    status is, and the route does not look at it. A URL that [fetch]
    cannot parse also makes it reject, before anything is sent: with
    [BASE_URL] unset, [Unreachable] is the only outcome there is. *)
Inductive Outcome : Type :=
| Unreachable (reason : string)
| Answers (http_status : Z) (content : option Json).

(** The calls made so far, oldest first, the outcomes of the calls to
    come (none left: the gateway answers 200 with [{}]) and what
    [console.error] printed. *)
Record Net : Type := mkNet {
  outbox : list Fetch;
  replies : list Outcome;
  console : list Exception
}.

Definition quiet : Net := mkNet [] [] [].

Definition next_reply (n : Net) : Outcome :=
  match replies n with
  | o :: _ => o
  | [] => Answers 200 (Some (JObj []))
  end.

(** [fetch(...)]: the call leaves, then the promise settles. *)
Definition fetch (f : Fetch) : Async.M Net Exception (option Json) :=
  fun n =>
    let n' := mkNet (outbox n ++ [f]) (tl (replies n)) (console n) in
    match next_reply n with
    | Unreachable reason => (inl (FetchError reason), n')
    | Answers _ content => (inr content, n')
    end.

(** [response.json()]. *)
Definition response_json (content : option Json) : Async.M Net Exception Json :=
  match content with
  | Some j => Async.ret j
  | None => Async.throw (FetchError "Unexpected token in JSON")
  end.

(** [console.error(error)]. *)
Definition console_error (error : Exception) : Async.M Net Exception unit :=
  fun n => (inr tt, mkNet (outbox n) (replies n) (console n ++ [error])).

(** [fetch(...).then((response) => response.json()).catch((error) =>
    console.error(error))]: fulfilled with the JSON, or with [undefined]
    once the error is printed. *)
Definition post (f : Fetch) : Async.M Net Exception (option Json) :=
  Async.catch
    (Async.then_ (fetch f)
       (fun response => j <- response_json response ;; Async.ret (Some j)))
    (fun error => console_error error ;;; Async.ret None).

End Gateway.

(** ** The invitation broadcast *)

Section Broadcast.

Import Gateway.

(** [process.env.BASE_URL]; an unset variable prints as [undefined]. *)
Variable BASE_URL : option string.

Definition base_url : string :=
  match BASE_URL with
  | Some u => u
  | None => "undefined"
  end.

Definition myHeaders : list (string * string) :=
  [("Content-Type", "application/json");
   ("apikey", "zYzP7ocstxh3Sscefew4FZTCu4ehnM8v4hu")].

Definition rawImage (convidado : Prisma.Convidados) : Json :=
  JObj [("number", JStr (Prisma.phone convidado));
        ("options", JObj [("delay", JNum 200);
                          ("presence", JStr "composing");
                          ("quotedMessageId", JNum 1)]);
        ("mediaMessage", JObj [("mediatype", JStr "image");
                               ("media", JStr "https://i.imgur.com/IDJTzgy.jpeg")])].

(** The template of the text message, cut at the interpolated name and
    before the menu. *)
Definition saudacao : string := "
*Convite especial*

Olá ".

Definition convite : string := ", com as bençãos de Deus e de nossos pais e familiares, te convidamos para celebrar o amor!

*Rafael e Letícia*

".

Definition menu : string := "_Digite o número para a opção:_

*1* - Endereço/horário
*2* - Confirmar presença
*3* - Falar com noivos
*4* - Lista de presentes".

Definition text (nome : string) : string :=
  saudacao ++ nome ++ convite ++ menu.

Definition raw (convidado : Prisma.Convidados) : Json :=
  JObj [("number", JStr (Prisma.phone convidado));
        ("options", JObj [("delay", JNum 2000);
                          ("presence", JStr "composing")]);
        ("textMessage", JObj [("text", JStr (text (Prisma.nome convidado)))])].

Definition sendMedia_call (convidado : Prisma.Convidados) : Fetch :=
  mkFetch (base_url ++ "/message/sendMedia/baby") "POST" myHeaders
    (rawImage convidado) "follow".

Definition sendText_call (convidado : Prisma.Convidados) : Fetch :=
  mkFetch (base_url ++ "/message/sendText/baby") "POST" myHeaders
    (raw convidado) "follow".

(** The [sendConvite] closure of the route. *)
Definition sendConvite (convidado : Prisma.Convidados)
  : Async.M Net Exception unit :=
  post (sendMedia_call convidado) ;;;
  post (sendText_call convidado) ;;;
  Async.ret tt.

(** A pending [setTimeout(() => { sendConvite(convidado) }, delay)]: the
    guest its callback closes over and the delay asked for, in
    milliseconds. *)
Record Timer : Type := mkTimer {
  guest : Prisma.Convidados;
  delay : Z
}.

(** What the route handler works on: the table and the pending timers,
    in the order they were set. *)
Record Server : Type := mkServer {
  db : Prisma.Db;
  timers : list Timer
}.

Definition on_db {A} (m : Async.M Prisma.Db Exception A)
  : Async.M Server Exception A :=
  fun s => let (r, d) := m (db s) in (r, mkServer d (timers s)).

Definition setTimeout (convidado : Prisma.Convidados) (ms : Z)
  : Async.M Server Exception unit :=
  fun s => (inr tt, mkServer (db s) (timers s ++ [mkTimer convidado ms])).

(** [xs.entries()], counting from [index]. *)
Fixpoint entries_from {A} (index : Z) (xs : list A) : list (Z * A) :=
  match xs with
  | [] => []
  | x :: rest => (index, x) :: entries_from (index + 1) rest
  end.

Definition entries {A} (xs : list A) : list (Z * A) := entries_from 0 xs.

(** [GET sendConvite]. *)
Definition sendConvite_route : Async.M Server Exception Response :=
  convidados <- on_db (Prisma.findMany_confirmed false) ;;
  Async.for_of (entries convidados)
    (fun '(index, convidado) => setTimeout convidado (index * 60000)) ;;;
  Async.ret (mkResponse HttpStatus.CREATED (JsonMessage "Convites sendo enviados")).

(** The timer callback: [sendConvite] is called and not awaited, so
    whatever its promise settles to is dropped. *)
Definition fire (t : Timer) (n : Net) : Net := snd (sendConvite (guest t) n).

(** The order of the delays asked for, and the order the timers were set
    in among equal delays: the schedule the route writes down. What Node
    makes of the delays is [due_order] below. *)
Fixpoint enqueue (t : Timer) (queue : list Timer) : list Timer :=
  match queue with
  | [] => [t]
  | u :: rest =>
      if delay t <? delay u then t :: u :: rest else u :: enqueue t rest
  end.

Definition fire_order (pending : list Timer) : list Timer :=
  fold_left (fun queue t => enqueue t queue) pending [].

(** The invitations of the pending timers, one after the other in the
    order of the delays asked for, each with its two calls made before
    the next begins. *)
Definition run_timers (pending : list Timer) (n : Net) : Net :=
  fold_left (fun n t => fire t n) (fire_order pending) n.

(** One request to [sendConvite] on a server with no timer pending: the
    handler answers, then the timers it set run against the gateway. *)
Definition broadcast (d : Prisma.Db) (n : Net)
  : (Exception + Response) * Prisma.Db * Net :=
  let (answer, s) := sendConvite_route (mkServer d []) in
  (answer, db s, run_timers (timers s) n).

End Broadcast.

(** ** Node's timers *)

(** The largest delay a timer takes, in milliseconds. *)
Definition TIMEOUT_MAX : Z := 2147483647.

(** The delay Node gives a timer set with [ms]: a delay that is not
    between 1 and [TIMEOUT_MAX] becomes 1. *)
Definition timeout_of (ms : Z) : Z :=
  if (1 <=? ms) && (ms <=? TIMEOUT_MAX) then ms else 1.

(** When a pending timer is due, in milliseconds after it was set. *)
Definition due (t : Timer) : Z := timeout_of (delay t).

(** The timers set in one turn of the event loop come due by due time,
    and in the order they were set among timers due together. *)
Fixpoint enqueue_due (t : Timer) (queue : list Timer) : list Timer :=
  match queue with
  | [] => [t]
  | u :: rest =>
      if due t <? due u then t :: u :: rest else u :: enqueue_due t rest
  end.

Definition due_order (pending : list Timer) : list Timer :=
  fold_left (fun queue t => enqueue_due t queue) pending [].

(** ** Routes that reach the gateway through the controller

    [SendMessageController], the DTO classes, [dataValidate], the guards
    and multer are not among the sources: they are the variables of the
    sections below, and [World] is whatever they act on (the gateway
    included). *)

Section Buttons.

Variable World : Type.
Variables Instance Data Button Props Reply : Type.

(** [new SendButtonsDto(data)], which may throw. *)
Variable new_SendButtonsDto : Data -> Exception + Props.

(** [props.buttonsMessage.buttons]. *)
Variable buttons : Props -> list Button.

(** [button.validate()]: the message of the error it returns, if any. *)
Variable validate : Button -> option string.

(** [sendMessageController.sendButtons(instance, props)], a promise. *)
Variable sendButtons : Instance -> Props -> Async.M World Exception Reply.

(** The [for] loop over the buttons: the first error is thrown. *)
Fixpoint validate_buttons (bs : list Button) : Async.M World Exception unit :=
  match bs with
  | [] => Async.ret tt
  | b :: rest =>
      match validate b with
      | Some message => Async.throw (BadRequestException message)
      | None => validate_buttons rest
      end
  end.

(** The [execute] callback of the [sendButtons] route. The [try] block
    returns the controller's promise without awaiting it, so the [catch]
    clause sees what the constructor and the loop throw; the promise is
    awaited by the caller. *)
Definition sendButtons_execute (instance : Instance) (data : Data)
  : Async.M World Exception Reply :=
  promise <-
    Async.try_catch
      (props <- (fun w => (new_SendButtonsDto data, w)) ;;
       validate_buttons (buttons props) ;;;
       Async.ret (sendButtons instance props))
      (fun error => Async.throw (BadRequestException (message_of error))) ;;
  promise.

End Buttons.

Section MediaFile.

Variable World : Type.
Variable Reply : Type.

(** [req.file] as multer leaves it. *)
Record UploadedFile : Type := mkUploadedFile {
  fieldname : string;
  originalname : string
}.

(** What [validateMedia] reads and writes of the request. *)
Record Request : Type := mkRequest {
  file : option UploadedFile;
  presence : option string
}.

(** An Express middleware: it throws, or calls [next()] with the request
    as it left it. *)
Definition Middleware : Type := Request -> Async.M World Exception Request.

(** [isEmpty] of class-validator: [''], [null] or [undefined]. *)
Definition isEmpty (v : option string) : bool :=
  match v with
  | None => true
  | Some s => String.eqb s ""
  end.

Definition validateMedia : Middleware :=
  fun req =>
    match file req with
    | None => Async.throw (BadRequestException "Invalid File")
    | Some f =>
        if negb (String.eqb (fieldname f) "attachment")
        then Async.throw (BadRequestException "Invalid File")
        else if isEmpty (presence req)
             then Async.ret (mkRequest (file req) None)
             else Async.ret req
    end.

(** The handlers of a route, left to right. *)
Fixpoint chain (ms : list Middleware) : Middleware :=
  match ms with
  | [] => fun req => Async.ret req
  | m :: rest => fun req => req' <- m req ;; chain rest req'
  end.

Variable guards : list Middleware.

(** [uploadFile.single('attachment')]. *)
Variable uploadFile_single : Middleware.

(** The last handler of each route: [dataValidate] running the
    controller. *)
Variable sendMediaFile : Request -> Async.M World Exception Reply.
Variable sendWhatsAppAudioFile : Request -> Async.M World Exception Reply.

(** [POST sendMediaFile]. *)
Definition sendMediaFile_route (req : Request)
  : Async.M World Exception (Z * Reply) :=
  req' <- chain (guards ++ [uploadFile_single; validateMedia]) req ;;
  response <- sendMediaFile req' ;;
  Async.ret (HttpStatus.CREATED, response).

(** [POST sendWhatsAppAudioFile]. *)
Definition sendWhatsAppAudioFile_route (req : Request)
  : Async.M World Exception (Z * Reply) :=
  req' <- chain (guards ++ [uploadFile_single; validateMedia]) req ;;
  response <- sendWhatsAppAudioFile req' ;;
  Async.ret (HttpStatus.CREATED, response).

End MediaFile.

(** ** Multer *)

(** The body of a multipart request, as far as the file routes read it:
    its file parts, in order, each with the field it is in, and the value
    of its [presence] field. *)
Record Multipart : Type := mkMultipart {
  files : list UploadedFile;
  presence_field : option string
}.

Section Multer.

Variable World : Type.

(** [multer(...).single(name)] on a request with the body [body] ([None]:
    the request is not multipart, and is passed on as it is). A file in a
    field other than [name], or a second file, is refused with the
    [MulterError] whose message is ['Unexpected field']; otherwise
    [req.file] is the file of the body, if it has one, and [req.body]
    holds its fields. *)
Definition single (name : string) (body : option Multipart) : Middleware World :=
  fun req =>
    match body with
    | None => Async.ret req
    | Some b =>
        match files b with
        | [] => Async.ret (mkRequest None (presence_field b))
        | f :: more =>
            if String.eqb (fieldname f) name
            then match more with
                 | [] => Async.ret (mkRequest (Some f) (presence_field b))
                 | _ :: _ => Async.throw (ThrownError "Unexpected field")
                 end
            else Async.throw (ThrownError "Unexpected field")
        end
    end.

End Multer.

(** ** Vocabulary of the properties *)

(** What one turn of the import loop does, operation by operation. *)
Inductive registrar_outcome (c : Dto.Convidado) (d : Prisma.Db)
  : (Exception + unit) * Prisma.Db -> Prop :=
| lookup_fails :
    Prisma.fails d = true ->
    registrar_outcome c d
      (inl (PrismaClientError "convidados.findFirst"),
       Prisma.sent (Prisma.FindFirstPhone (Dto.phone c)) d)
| guest_exists x :
    Prisma.fails d = false ->
    find (fun r => String.eqb (Prisma.phone r) (Dto.phone c)) (Prisma.rows d) = Some x ->
    registrar_outcome c d (inr tt, Prisma.sent (Prisma.FindFirstPhone (Dto.phone c)) d)
| insert_fails :
    Prisma.fails d = false ->
    find (fun r => String.eqb (Prisma.phone r) (Dto.phone c)) (Prisma.rows d) = None ->
    Prisma.fails (Prisma.sent (Prisma.FindFirstPhone (Dto.phone c)) d) = true ->
    registrar_outcome c d
      (inl (PrismaClientError "convidados.create"),
       Prisma.sent (Prisma.Create (Dto.nome c) (Dto.phone c) (Dto.presente c))
         (Prisma.sent (Prisma.FindFirstPhone (Dto.phone c)) d))
| guest_created :
    Prisma.fails d = false ->
    find (fun r => String.eqb (Prisma.phone r) (Dto.phone c)) (Prisma.rows d) = None ->
    Prisma.fails (Prisma.sent (Prisma.FindFirstPhone (Dto.phone c)) d) = false ->
    registrar_outcome c d
      (inr tt,
       let d2 := Prisma.sent (Prisma.Create (Dto.nome c) (Dto.phone c) (Dto.presente c))
                   (Prisma.sent (Prisma.FindFirstPhone (Dto.phone c)) d) in
       Prisma.mkDb (Prisma.rows d ++ [Prisma.new_row d2 (Dto.nome c) (Dto.phone c) (Dto.presente c)])
         (Prisma.serial d + 1) (Prisma.today d) (Prisma.health d2) (Prisma.trace d2)).

(** The number of guests whose [confirmed] is [true]. *)
Fixpoint count_confirmed (l : list Prisma.Convidados) : Z :=
  match l with
  | [] => 0
  | c :: rest =>
      match Prisma.confirmed c with
      | Some true => 1 + count_confirmed rest
      | _ => count_confirmed rest
      end
  end.

(** What [console.error] prints for one gateway call. *)
Definition printed (o : Gateway.Outcome) : list Exception :=
  match o with
  | Gateway.Unreachable reason => [FetchError reason]
  | Gateway.Answers _ None => [FetchError "Unexpected token in JSON"]
  | Gateway.Answers _ (Some _) => []
  end.

(** The outcome of the [k]-th gateway call from now. *)
Definition reply_at (k : nat) (n : Gateway.Net) : Gateway.Outcome :=
  nth k (Gateway.replies n) (Gateway.Answers 200 (Some (Gateway.JObj []))).

(** The timers [sendConvite] sets for the guests it fetched. *)
Definition staggered (convidados : list Prisma.Convidados) : list Timer :=
  map (fun '(index, convidado) => mkTimer convidado (index * 60000))
    (entries convidados).

(** The delay asked for [a] is no longer than the one asked for [b]. *)
Definition by_delay (a b : Timer) : Prop := delay a <= delay b.

(** [a] comes due no later than [b]. *)
Definition by_due (a b : Timer) : Prop := due a <= due b.

(** The gateway calls one guest's invitation makes. *)
Definition calls_of (BASE_URL : option string) (c : Prisma.Convidados)
  : list Gateway.Fetch :=
  [sendMedia_call BASE_URL c; sendText_call BASE_URL c].

(** ** Further vocabulary *)

(** None of the storage operations to come fails. *)
Definition healthy (d : Prisma.Db) : Prop :=
  Forall (fun ok => ok = true) (Prisma.health d).

(** The phones of [ps] that are not in [seen], each once, in the order of
    their first occurrence. *)
Fixpoint fresh_phones (seen ps : list string) : list string :=
  match ps with
  | [] => []
  | p :: rest =>
      if existsb (String.eqb p) seen
      then fresh_phones seen rest
      else p :: fresh_phones (seen ++ [p]) rest
  end.

(** The storage operations of an import of [body] into a table holding
    the phones [seen], when none fails: each tuple is looked up, and
    inserted when its phone has not been seen. *)
Fixpoint import_ops (seen : list string) (body : list Dto.Convidado)
  : list Prisma.Query :=
  match body with
  | [] => []
  | c :: rest =>
      if existsb (String.eqb (Dto.phone c)) seen
      then Prisma.FindFirstPhone (Dto.phone c) :: import_ops seen rest
      else Prisma.FindFirstPhone (Dto.phone c)
           :: Prisma.Create (Dto.nome c) (Dto.phone c) (Dto.presente c)
           :: import_ops (seen ++ [Dto.phone c]) rest
  end.

(** The table keeps its ids apart: no two rows share one, and all are
    below the next value of the sequence. *)
Definition ids_fresh (d : Prisma.Db) : Prop :=
  NoDup (map Prisma.id (Prisma.rows d))
  /\ Forall (fun r => Prisma.id r < Prisma.serial d) (Prisma.rows d).

(** [confirmed] is [NULL]. *)
Definition unanswered (c : Prisma.Convidados) : bool :=
  match Prisma.confirmed c with
  | None => true
  | Some _ => false
  end.

(** The [number] a gateway call is addressed to. *)
Definition number_of (f : Gateway.Fetch) : option string :=
  match Gateway.body f with
  | Gateway.JObj ((key, Gateway.JStr p) :: _) =>
      if String.eqb key "number" then Some p else None
  | _ => None
  end.

(** The request [validateMedia] passes on. *)
Definition normalised (req : Request) : Request :=
  if isEmpty (presence req) then mkRequest (file req) None else req.

(** A table of unconfirmed guests, as many as wanted. *)
Module Crowd.

Definition guest (k : Z) : Prisma.Convidados :=
  Prisma.mkConvidados k (Some 0) None "Convidado"
    ("+55" ++ NilZero.string_of_uint (N.to_uint (Z.to_N k)))
    (Some false) (Some "M") [].

Fixpoint guests_from (k : Z) (n : nat) : list Prisma.Convidados :=
  match n with
  | O => []
  | S m => guest k :: guests_from (k + 1) m
  end.

Definition table (n : Z) : Prisma.Db :=
  Prisma.mkDb (guests_from 1 (Z.to_nat n)) (n + 1) 0 [] [].

End Crowd.

(** Inputs of the further properties. *)
Module Cases.

(** Ana's phone under another name. *)
Definition ana_again : Dto.Convidado :=
  Dto.mkConvidado "Ana Paula" "+5511999999999" (Text "N").

(** An upload in the expected field, with an empty [presence]. *)
Definition upload_ok : Request :=
  mkRequest (Some (mkUploadedFile "attachment" "convite.png")) (Some "").

(** A multipart body with one file, in the field [file]. *)
Definition wrong_field : option Multipart :=
  Some (mkMultipart [mkUploadedFile "file" "a.ogg"] None).

(** A multipart body with no file. *)
Definition no_file : option Multipart :=
  Some (mkMultipart [] (Some "composing")).

(** A guard that lets nobody in. *)
Definition deny : Middleware Gateway.Net :=
  fun _ => Async.throw (ThrownError "Unauthorized").

End Cases.

(** ** Sample inputs *)

Module Sample.

Definition ana : Dto.Convidado :=
  Dto.mkConvidado "Ana" "+5511999999999" (Text "S").
Definition bia : Dto.Convidado :=
  Dto.mkConvidado "Bia" "+5521988887777" Undefined.
Definition caio : Dto.Convidado :=
  Dto.mkConvidado "Caio" "+5521977776666" (Text "N").

(** A table with an unconfirmed, a confirmed, a [NULL] and another
    unconfirmed guest. *)
Definition guests : list Prisma.Convidados :=
  [Prisma.mkConvidados 1 (Some 0) None "Ana" "+5511999999999" (Some false) (Some "S") [];
   Prisma.mkConvidados 2 (Some 0) (Some 3) "Bia" "+5521988887777" (Some true) (Some "M") ["Leo"];
   Prisma.mkConvidados 3 (Some 1) None "Caio" "+5521977776666" None (Some "N") [];
   Prisma.mkConvidados 4 (Some 2) None "Duda" "+5521966665555" (Some false) (Some "M") []].

Definition table : Prisma.Db := Prisma.mkDb guests 5 4 [] [].

(** A table of confirmed guests only. *)
Definition all_confirmed : Prisma.Db :=
  Prisma.mkDb
    [Prisma.mkConvidados 1 (Some 0) (Some 3) "Bia" "+5521988887777" (Some true) (Some "M") []]
    2 4 [] [].

(** An empty table whose third storage operation fails. *)
Definition flaky : Prisma.Db := Prisma.mkDb [] 1 0 [true; true; false] [].

(** A gateway that cannot be reached, then answers something that is
    not JSON. *)
Definition bad_gateway : Gateway.Net :=
  Gateway.mkNet [] [Gateway.Unreachable "ECONNREFUSED"; Gateway.Answers 200 None] [].

(** A gateway that answers every call with an error in JSON. *)
Definition internal_error : Gateway.Outcome :=
  Gateway.Answers 500
    (Some (Gateway.JObj [("status", Gateway.JNum 500);
                         ("error", Gateway.JStr "Internal Server Error")])).

Definition failing_gateway : Gateway.Net :=
  Gateway.mkNet []
    [internal_error; internal_error; internal_error; internal_error] [].

(** The [BASE_URL] of a gateway on this machine. *)
Definition base : option string := Some "http://localhost:8080".

(** The sample table on a storage that is down. *)
Definition down : Prisma.Db := Prisma.mkDb guests 5 4 [false] [].

(** A buttons DTO reduced to the display texts of its buttons; a button
    is valid when its text is not empty, and the controller posts the
    buttons to the gateway. *)
Definition validate (displayText : string) : option string :=
  if String.eqb displayText "" then Some "displayText is required" else None.

Definition sendButtons (instance : string) (props : list string)
  : Async.M Gateway.Net Exception (option Gateway.Json) :=
  Gateway.post
    (Gateway.mkFetch ("/message/sendButtons/" ++ instance) "POST" []
       (Gateway.JObj (map (fun b => ("displayText", Gateway.JStr b)) props))
       "follow").

(** Multer with nothing to add, and a controller that posts the name of
    the file. *)
Definition upload : Middleware Gateway.Net := fun req => Async.ret req.

Definition sendFile (req : Request)
  : Async.M Gateway.Net Exception (option Gateway.Json) :=
  Gateway.post
    (Gateway.mkFetch "/message/sendMediaFile/baby" "POST" []
       (Gateway.JStr (match file req with
                      | Some f => originalname f
                      | None => ""
                      end))
       "follow").

End Sample.

(** * Properties *)

Local Open Scope list_scope.

(** ** Storage operations *)

Section StoreFacts.

Import Prisma.

Lemma find_phone_none (p : string) (l : list Convidados) :
  find (fun c => String.eqb (phone c) p) l = None -> ~ In p (map phone l).
Proof.
  intros Hnone Hin. apply in_map_iff in Hin as [c [Hp Hc]].
  pose proof (find_none _ _ Hnone c Hc) as Hneq. simpl in Hneq.
  apply String.eqb_neq in Hneq. contradiction.
Qed.

Lemma find_phone_some (p : string) (l : list Convidados) :
  In p (map phone l) ->
  exists c, find (fun c => String.eqb (phone c) p) l = Some c.
Proof.
  intros Hin. destruct (find _ l) as [c|] eqn:Hfind.
  - now exists c.
  - now apply find_phone_none in Hfind.
Qed.

Lemma NoDup_snoc {A} (x : A) (l : list A) :
  NoDup l -> ~ In x l -> NoDup (l ++ [x]).
Proof.
  intros Hl Hx.
  assert (Hrev : NoDup (rev (x :: rev l))).
  { apply NoDup_rev. constructor; [now rewrite <- in_rev | now apply NoDup_rev]. }
  cbn in Hrev. now rewrite rev_involutive in Hrev.
Qed.

Lemma registrar_spec (c : Dto.Convidado) (d : Db) :
  registrar_outcome c d (registrar c d).
Proof.
  unfold registrar, Async.bind, findFirst, query.
  destruct (fails d) eqn:Hf.
  - now constructor.
  - cbn [rows sent].
    destruct (find _ (rows d)) as [x|] eqn:Hfind.
    + now apply guest_exists with x.
    + unfold create, query.
      destruct (fails (sent _ d)) eqn:Hf2.
      * now constructor.
      * now apply guest_created.
Qed.

(** One turn adds at most one row, whose phone was not in the table. *)
Lemma registrar_rows (c : Dto.Convidado) (d : Db) :
  rows (snd (registrar c d)) = rows d
  \/ (~ In (Dto.phone c) (phones d)
      /\ exists r, rows (snd (registrar c d)) = rows d ++ [r]
                   /\ phone r = Dto.phone c
                   /\ confirmed r = Some false).
Proof.
  destruct (registrar_spec c d); cbn; auto.
  right. split.
  - now apply find_phone_none.
  - eexists. split; [reflexivity|]. now split.
Qed.

Lemma registrar_unique (c : Dto.Convidado) (d : Db) :
  NoDup (phones d) -> NoDup (phones (snd (registrar c d))).
Proof.
  intros Hd. unfold phones in *.
  destruct (registrar_rows c d) as [-> | [Hnew [r [-> [Hr _]]]]]; [assumption|].
  rewrite map_app. cbn. rewrite Hr.
  now apply NoDup_snoc.
Qed.

(** A phone already in the table: the lookup is the only operation and
    the table stays as it is, whatever the storage does. *)
Lemma registrar_present (c : Dto.Convidado) (d : Db) :
  In (Dto.phone c) (phones d) ->
  rows (snd (registrar c d)) = rows d
  /\ trace (snd (registrar c d)) = trace d ++ [FindFirstPhone (Dto.phone c)].
Proof.
  intros Hin. apply find_phone_some in Hin as [x Hx].
  destruct (registrar_spec c d); cbn; auto; congruence.
Qed.

Lemma registrar_grows (c : Dto.Convidado) (d : Db) :
  incl (phones d) (phones (snd (registrar c d))).
Proof.
  unfold phones.
  destruct (registrar_rows c d) as [-> | [_ [r [-> _]]]].
  - apply incl_refl.
  - rewrite map_app. now apply incl_appl, incl_refl.
Qed.

Lemma registrar_done (c : Dto.Convidado) (d d' : Db) :
  registrar c d = (inr tt, d') -> In (Dto.phone c) (phones d').
Proof.
  intros Hrun. pose proof (registrar_spec c d) as Hspec.
  rewrite Hrun in Hspec. unfold phones.
  inversion Hspec; subst; cbn.
  - apply in_map_iff. exists x. split.
    + match goal with
      | H : find _ _ = Some _ |- _ => apply find_some in H as [_ H]
      end.
      now apply String.eqb_eq.
    + match goal with
      | H : find _ _ = Some _ |- _ => now apply find_some in H as [H _]
      end.
  - rewrite map_app. apply in_or_app. right. now left.
Qed.

(** The loop, and the final [findMany], over the whole body. *)
Lemma for_of_unique (body : list Dto.Convidado) (d : Db) :
  NoDup (phones d) ->
  NoDup (phones (snd (Async.for_of body registrar d))).
Proof.
  revert d. induction body as [|c body IH]; intros d Hd; [exact Hd|].
  cbn. unfold Async.bind.
  pose proof (registrar_unique c d Hd) as Hc.
  destruct (registrar c d) as [[e|[]] d1]; cbn in *; auto.
Qed.

Lemma for_of_present (body : list Dto.Convidado) (d : Db) :
  (forall c, In c body -> In (Dto.phone c) (phones d)) ->
  rows (snd (Async.for_of body registrar d)) = rows d.
Proof.
  revert d. induction body as [|c body IH]; intros d Hd; [reflexivity|].
  cbn. unfold Async.bind.
  destruct (registrar_present c d (Hd c (or_introl eq_refl))) as [Hrows _].
  destruct (registrar c d) as [[e|[]] d1]; cbn in *; [assumption|].
  rewrite IH; [assumption|].
  intros c' Hc'. unfold phones. rewrite Hrows. apply Hd. now right.
Qed.

Lemma for_of_done (body : list Dto.Convidado) (d d' : Db) :
  Async.for_of body registrar d = (inr tt, d') ->
  forall c, In c body -> In (Dto.phone c) (phones d').
Proof.
  revert d. induction body as [|c body IH]; intros d Hrun c' Hc'; [destruct Hc'|].
  cbn in Hrun. unfold Async.bind in Hrun.
  destruct (registrar c d) as [[e|[]] d1] eqn:Hc; [discriminate|].
  destruct Hc' as [<- | Hc'].
  - apply registrar_done in Hc.
    assert (Hgrow : incl (phones d1) (phones d')).
    { clear -Hrun. revert d1 Hrun.
      induction body as [|b body IHb]; intros d1 Hrun.
      - cbn in Hrun. injection Hrun as <-. apply incl_refl.
      - cbn in Hrun. unfold Async.bind in Hrun.
        pose proof (registrar_grows b d1) as Hb.
        destruct (registrar b d1) as [[e|[]] d2]; [discriminate|].
        cbn in Hb. eapply incl_tran; [exact Hb|]. now apply IHb. }
    now apply Hgrow.
  - now apply (IH d1).
Qed.

Lemma query_read_rows {A} (q : Query) (f : Db -> A) (d : Db) :
  rows (snd (query q (fun d => (f d, d)) d)) = rows d
  /\ serial (snd (query q (fun d => (f d, d)) d)) = serial d.
Proof. unfold query. destruct (fails d); cbn; auto. Qed.

Lemma registrarConvidados_rows (body : list Dto.Convidado) (d : Db) :
  rows (snd (registrarConvidados body d))
  = rows (snd (Async.for_of body registrar d)).
Proof.
  unfold registrarConvidados, Async.bind.
  destruct (Async.for_of body registrar d) as [[e|[]] d1]; [reflexivity|].
  unfold findMany, query. destruct (fails d1); reflexivity.
Qed.

Lemma registrarConvidados_unique (body : list Dto.Convidado) (d : Db) :
  NoDup (phones d) -> NoDup (phones (snd (registrarConvidados body d))).
Proof.
  intros Hd. unfold phones. rewrite registrarConvidados_rows.
  now apply for_of_unique.
Qed.

Lemma bulk_imports_unique (calls : list (list Dto.Convidado)) (d : Db) :
  NoDup (phones d) -> NoDup (phones (bulk_imports calls d)).
Proof.
  revert d. induction calls as [|body calls IH]; intros d Hd; [exact Hd|].
  cbn. apply IH. now apply registrarConvidados_unique.
Qed.

Lemma registrarConvidados_done (body : list Dto.Convidado) (d d' : Db) r :
  registrarConvidados body d = (inr r, d') ->
  forall c, In c body -> In (Dto.phone c) (phones d').
Proof.
  unfold registrarConvidados, Async.bind. intros Hrun.
  destruct (Async.for_of body registrar d) as [[e|[]] d1] eqn:Hloop;
    [discriminate|].
  pose proof (for_of_done body d d1 Hloop) as Hdone.
  unfold findMany, query in Hrun. destruct (fails d1); [discriminate|].
  injection Hrun as _ <-. exact Hdone.
Qed.

End StoreFacts.

(** ** Bulk import *)

Section BulkImport.

Import Prisma.

Lemma for_of_app {St E A} (xs ys : list A) (f : A -> Async.M St E unit) (s : St) :
  Async.for_of (xs ++ ys) f s
  = Async.bind (Async.for_of xs f) (fun _ => Async.for_of ys f) s.
Proof.
  revert s. induction xs as [|x xs IH]; intros s; [reflexivity|].
  cbn. unfold Async.bind. destruct (f x s) as [[e|u] s1]; [reflexivity|].
  rewrite IH. reflexivity.
Qed.

(** From an empty table no sequence of imports yields two guests with
    one phone. *)
Lemma bulk_imports_from_empty (calls : list (list Dto.Convidado)) :
  NoDup (phones (bulk_imports calls empty)).
Proof. apply bulk_imports_unique. constructor. Qed.

(** C1. Each tuple is looked up by phone before it is inserted, and a
    tuple whose phone is found is skipped: a turn of the loop either
    leaves the table as it is or adds one row whose phone was absent, and
    on a phone that is present it sends the lookup and nothing else.
    Hence a table without two guests of one phone stays so through any
    sequence of bulk imports, whatever the storage does, and submitting
    again a body that was imported leaves the table as it is. *)
Theorem registrarConvidados_phone_unique
  (calls : list (list Dto.Convidado)) (d : Db) :
  NoDup (phones d) ->
  NoDup (phones (bulk_imports calls d))
  /\ (forall c,
        rows (snd (registrar c d)) = rows d
        \/ (~ In (Dto.phone c) (phones d)
            /\ exists r, rows (snd (registrar c d)) = rows d ++ [r]
                         /\ phone r = Dto.phone c
                         /\ confirmed r = Some false))
  /\ (forall c,
        In (Dto.phone c) (phones d) ->
        rows (snd (registrar c d)) = rows d
        /\ trace (snd (registrar c d)) = trace d ++ [FindFirstPhone (Dto.phone c)])
  /\ (forall body r d1,
        registrarConvidados body d = (inr r, d1) ->
        rows (snd (registrarConvidados body d1)) = rows d1).
Proof.
  intros Hd. split; [now apply bulk_imports_unique|].
  split; [intros c; apply registrar_rows|].
  split; [intros c; apply registrar_present|].
  intros body r d1 Hrun.
  rewrite registrarConvidados_rows. apply for_of_present.
  exact (registrarConvidados_done body d d1 r Hrun).
Qed.

(** C8. When the tuples before [failing] are imported and a storage
    operation of [failing] (its lookup or its insert) fails, the request
    ends there with that storage error: the outcome and the store are
    those of the failing turn, whatever tuples follow, so none of them is
    looked up or inserted; the failing turn itself adds no row. *)
Theorem registrarConvidados_aborts
  (before after : list Dto.Convidado) (failing : Dto.Convidado)
  (d d1 : Db) (e : Exception) :
  Async.for_of before registrar d = (inr tt, d1) ->
  fst (registrar failing d1) = inl e ->
  registrarConvidados (before ++ failing :: after) d
  = (inl e, snd (registrar failing d1))
  /\ rows (snd (registrar failing d1)) = rows d1
  /\ (e = PrismaClientError "convidados.findFirst"
      /\ trace (snd (registrar failing d1))
         = trace d1 ++ [FindFirstPhone (Dto.phone failing)]
      \/ e = PrismaClientError "convidados.create"
         /\ trace (snd (registrar failing d1))
            = trace d1 ++ [FindFirstPhone (Dto.phone failing);
                           Create (Dto.nome failing) (Dto.phone failing)
                             (Dto.presente failing)]).
Proof.
  intros Hbefore Hfail. split.
  - unfold registrarConvidados.
    unfold Async.bind at 1. rewrite for_of_app.
    unfold Async.bind at 1. rewrite Hbefore. cbn.
    unfold Async.bind at 1.
    destruct (registrar failing d1) as [[e'|u] d2]; cbn in *; congruence.
  - destruct (registrar_spec failing d1); cbn in *; try discriminate;
      injection Hfail as <-; split; auto.
    right. split; [reflexivity|]. now rewrite <- app_assoc.
Qed.

End BulkImport.

(** ** Confirmation report *)

Section Report.

Import Prisma.

Lemma count_confirmed_filter (l : list Convidados) :
  count_confirmed l
  = Z.of_nat (List.length (filter (fun c => truthy (confirmed c)) l)).
Proof.
  induction l as [|c l IH]; [reflexivity|].
  cbn [count_confirmed filter].
  destruct (confirmed c) as [[|]|]; cbn [truthy List.length];
    rewrite ?Nat2Z.inj_succ; lia.
Qed.

Lemma truthy_confirmed_is (c : Convidados) :
  truthy (confirmed c) = confirmed_is true c.
Proof. unfold confirmed_is. now destruct (confirmed c) as [[|]|]. Qed.

Lemma truthy_iff (c : Convidados) :
  truthy (confirmed c) = true <-> confirmed c = Some true.
Proof. destruct (confirmed c) as [[|]|]; cbn; split; congruence. Qed.

(** C2. The report reads the table and changes neither its rows nor its
    id sequence; when the read succeeds the answer is 201 with
    [totalConvites] the number of guests, [totalConfirmados] the number
    of guests whose [confirmed] is [true], and [confirmados] those guests
    and no other, in table order. An empty table gives 0, 0 and the
    empty list. *)
Theorem confirmados_report (d : Db) :
  rows (snd (confirmados_route d)) = rows d
  /\ serial (snd (confirmados_route d)) = serial d
  /\ (fails d = false ->
      exists r,
        fst (confirmados_route d)
        = inr (mkResponse 201 (JsonConfirmacoes r))
        /\ totalConvites r = Z.of_nat (List.length (rows d))
        /\ totalConfirmados r = count_confirmed (rows d)
        /\ confirmados r = filter (confirmed_is true) (rows d)
        /\ (forall c, In c (confirmados r)
                      <-> In c (rows d) /\ confirmed c = Some true)
        /\ (rows d = [] -> r = mkConfirmacoes 0 0 [])).
Proof.
  unfold confirmados_route, Async.bind, findMany, query.
  destruct (fails d) eqn:Hf; cbn; repeat split; try discriminate.
  intros _. eexists. split; [reflexivity|]. cbn.
  split; [reflexivity|].
  split; [now rewrite count_confirmed_filter|].
  split; [apply filter_ext; intros c; apply truthy_confirmed_is|].
  split; [|now intros ->].
  intros c. rewrite filter_In. now rewrite truthy_iff.
Qed.

End Report.

(** ** The timer queue *)

Section TimerQueue.

Lemma enqueue_last (t : Timer) (queue : list Timer) :
  Forall (fun u => by_delay u t) queue -> enqueue t queue = queue ++ [t].
Proof.
  induction 1 as [|u queue Hu _ IH]; [reflexivity|].
  cbn. unfold by_delay in Hu.
  destruct (delay t <? delay u) eqn:Hlt.
  - apply Z.ltb_lt in Hlt. lia.
  - now rewrite IH.
Qed.

Lemma sorted_before (queue later : list Timer) (t : Timer) :
  StronglySorted by_delay (queue ++ t :: later) ->
  Forall (fun u => by_delay u t) queue.
Proof.
  induction queue as [|u queue IH]; intros Hs; [constructor|].
  cbn in Hs. apply StronglySorted_inv in Hs as [Hs Hu].
  constructor; [|now apply IH].
  rewrite Forall_forall in Hu. apply Hu. apply in_or_app. right. now left.
Qed.

Lemma enqueue_all_sorted (pending queue : list Timer) :
  StronglySorted by_delay (queue ++ pending) ->
  fold_left (fun queue t => enqueue t queue) pending queue = queue ++ pending.
Proof.
  revert queue. induction pending as [|t pending IH]; intros queue Hs.
  - now rewrite app_nil_r.
  - cbn. rewrite (enqueue_last t queue (sorted_before _ _ _ Hs)).
    rewrite IH; rewrite <- app_assoc; [reflexivity | exact Hs].
Qed.

(** Timers set in the order of their delays come due in the order they
    were set. *)
Lemma fire_order_sorted (pending : list Timer) :
  StronglySorted by_delay pending -> fire_order pending = pending.
Proof. intros Hs. unfold fire_order. now rewrite enqueue_all_sorted. Qed.

Lemma staggered_from_lower {A} (f : A -> Prisma.Convidados) (k : Z) (l : list A) :
  Forall (fun u => k * 60000 <= delay u)
    (map (fun '(index, x) => mkTimer (f x) (index * 60000)) (entries_from k l)).
Proof.
  revert k. induction l as [|x l IH]; intros k; [constructor|].
  cbn. constructor; [cbn; lia|].
  eapply Forall_impl; [|apply (IH (k + 1))]. cbn. intros u Hu. lia.
Qed.

Lemma staggered_from_sorted (k : Z) (l : list Prisma.Convidados) :
  StronglySorted by_delay
    (map (fun '(index, c) => mkTimer c (index * 60000)) (entries_from k l)).
Proof.
  revert k. induction l as [|x l IH]; intros k; [constructor|].
  cbn. constructor; [apply IH|].
  eapply Forall_impl; [|apply (staggered_from_lower (fun c => c) (k + 1) l)].
  unfold by_delay. cbn. intros u Hu. lia.
Qed.

Lemma nth_error_entries_from {A} (k : Z) (l : list A) (i : nat) :
  nth_error (entries_from k l) i
  = option_map (fun x => (k + Z.of_nat i, x)) (nth_error l i).
Proof.
  revert k i. induction l as [|x l IH]; intros k [|i]; cbn [entries_from nth_error option_map].
  - reflexivity.
  - reflexivity.
  - f_equal. f_equal. lia.
  - rewrite IH. destruct (nth_error l i); cbn; [|reflexivity].
    f_equal. f_equal. lia.
Qed.

Lemma map_snd_entries_from {A} (k : Z) (l : list A) :
  map snd (entries_from k l) = l.
Proof. revert k. induction l as [|x l IH]; intros k; cbn; [|rewrite IH]; reflexivity. Qed.

Lemma staggered_guests (l : list Prisma.Convidados) :
  map guest (staggered l) = l.
Proof.
  unfold staggered, entries. rewrite map_map.
  rewrite <- (map_snd_entries_from 0 l) at 2.
  apply map_ext. now intros [i c].
Qed.

Lemma staggered_nth (l : list Prisma.Convidados) (i : nat) (c : Prisma.Convidados) :
  nth_error l i = Some c ->
  nth_error (staggered l) i = Some (mkTimer c (Z.of_nat i * 60000)).
Proof.
  intros Hc. unfold staggered, entries.
  rewrite nth_error_map, nth_error_entries_from, Hc. reflexivity.
Qed.

(** The scheduling loop of the route sets the staggered timers, after
    those already pending. *)
Lemma setTimeout_loop (l : list Prisma.Convidados) (k : Z) (s : Server) :
  Async.for_of (entries_from k l)
    (fun '(index, convidado) => setTimeout convidado (index * 60000)) s
  = (inr tt,
     mkServer (db s)
       (timers s
        ++ map (fun '(index, c) => mkTimer c (index * 60000)) (entries_from k l))).
Proof.
  revert k s. induction l as [|c l IH]; intros k s.
  - cbn. rewrite app_nil_r. now destruct s.
  - cbn. unfold Async.bind. cbn. rewrite IH. cbn.
    now rewrite <- app_assoc.
Qed.

(** The route, operation by operation. *)
Lemma sendConvite_route_spec (d : Prisma.Db) :
  sendConvite_route (mkServer d [])
  = if Prisma.fails d
    then (inl (PrismaClientError "convidados.findMany"),
          mkServer (Prisma.sent (Prisma.FindManyConfirmed false) d) [])
    else (inr (mkResponse 201 (JsonMessage "Convites sendo enviados")),
          mkServer (Prisma.sent (Prisma.FindManyConfirmed false) d)
            (staggered (filter (Prisma.confirmed_is false) (Prisma.rows d)))).
Proof.
  unfold sendConvite_route, Async.bind at 1, on_db, Prisma.findMany_confirmed,
    Prisma.query. cbn.
  destruct (Prisma.fails d); [reflexivity|]. cbn.
  unfold Async.bind, entries. now rewrite setTimeout_loop.
Qed.

End TimerQueue.

(** ** Node's timer queue *)

Section NodeTimers.

Lemma enqueue_due_last (t : Timer) (queue : list Timer) :
  Forall (fun u => by_due u t) queue -> enqueue_due t queue = queue ++ [t].
Proof.
  induction 1 as [|u queue Hu _ IH]; [reflexivity|].
  cbn. unfold by_due in Hu.
  destruct (due t <? due u) eqn:Hlt.
  - apply Z.ltb_lt in Hlt. lia.
  - now rewrite IH.
Qed.

Lemma sorted_before_due (queue later : list Timer) (t : Timer) :
  StronglySorted by_due (queue ++ t :: later) ->
  Forall (fun u => by_due u t) queue.
Proof.
  induction queue as [|u queue IH]; intros Hs; [constructor|].
  cbn in Hs. apply StronglySorted_inv in Hs as [Hs Hu].
  constructor; [|now apply IH].
  rewrite Forall_forall in Hu. apply Hu. apply in_or_app. right. now left.
Qed.

Lemma enqueue_due_all_sorted (pending queue : list Timer) :
  StronglySorted by_due (queue ++ pending) ->
  fold_left (fun queue t => enqueue_due t queue) pending queue = queue ++ pending.
Proof.
  revert queue. induction pending as [|t pending IH]; intros queue Hs.
  - now rewrite app_nil_r.
  - cbn. rewrite (enqueue_due_last t queue (sorted_before_due _ _ _ Hs)).
    rewrite IH; rewrite <- app_assoc; [reflexivity | exact Hs].
Qed.

(** Timers set in the order they are due come due in the order they were
    set. *)
Lemma due_order_sorted (pending : list Timer) :
  StronglySorted by_due pending -> due_order pending = pending.
Proof. intros Hs. unfold due_order. now rewrite enqueue_due_all_sorted. Qed.

Lemma enqueue_due_in (t u : Timer) (queue : list Timer) :
  In u (enqueue_due t queue) -> u = t \/ In u queue.
Proof.
  induction queue as [|v queue IH]; cbn.
  - intros [<- | []]. now left.
  - destruct (due t <? due v).
    + intros [<- | Hin]; [now left | now right].
    + intros [<- | Hin]; [right; now left|].
      destruct (IH Hin) as [-> | Hq]; [now left | right; now right].
Qed.

Lemma enqueue_due_keeps_sorted (t : Timer) (queue : list Timer) :
  StronglySorted by_due queue -> StronglySorted by_due (enqueue_due t queue).
Proof.
  induction 1 as [|u queue Hs IH Hu]; [repeat constructor|].
  cbn. destruct (due t <? due u) eqn:Hlt.
  - apply Z.ltb_lt in Hlt. constructor; [now constructor|].
    constructor; [unfold by_due; lia|].
    eapply Forall_impl; [|exact Hu]. unfold by_due. intros v Hv. lia.
  - apply Z.ltb_ge in Hlt. constructor; [exact IH|].
    apply Forall_forall. intros v Hv.
    apply enqueue_due_in in Hv as [-> | Hv]; [exact Hlt|].
    rewrite Forall_forall in Hu. now apply Hu.
Qed.

(** Whatever the order the timers were set in, they come due by due
    time. *)
Lemma due_order_is_sorted (pending : list Timer) :
  StronglySorted by_due (due_order pending).
Proof.
  unfold due_order.
  assert (Hgen : forall queue,
             StronglySorted by_due queue ->
             StronglySorted by_due
               (fold_left (fun queue t => enqueue_due t queue) pending queue)).
  { induction pending as [|t pending IH]; intros queue Hq; [exact Hq|].
    cbn. apply IH. now apply enqueue_due_keeps_sorted. }
  apply Hgen. constructor.
Qed.

Lemma sorted_nth_error (l : list Timer) (i j : nat) (a b : Timer) :
  StronglySorted by_due l ->
  nth_error l i = Some a -> nth_error l j = Some b -> (i < j)%nat ->
  by_due a b.
Proof.
  intros Hs. revert i j. induction Hs as [|u l Hs IH Hu]; intros i j Ha Hb Hij.
  - now destruct i.
  - destruct j as [|j]; [lia|]. destruct i as [|i]; cbn in Ha, Hb.
    + injection Ha as <-. rewrite Forall_forall in Hu.
      apply Hu. now apply nth_error_In in Hb.
    + apply (IH i j); auto. lia.
Qed.

Lemma timeout_of_index (i : nat) :
  timeout_of (Z.of_nat i * 60000)
  = if (1 <=? Z.of_nat i) && (Z.of_nat i <=? 35791)
    then Z.of_nat i * 60000
    else 1.
Proof.
  unfold timeout_of, TIMEOUT_MAX.
  destruct (Z.leb_spec 1 (Z.of_nat i)), (Z.leb_spec (Z.of_nat i) 35791),
    (Z.leb_spec 1 (Z.of_nat i * 60000)),
    (Z.leb_spec (Z.of_nat i * 60000) 2147483647); cbn; lia.
Qed.

Lemma staggered_due (l : list Prisma.Convidados) (i : nat) (t : Timer) :
  nth_error (staggered l) i = Some t ->
  due t = if (1 <=? Z.of_nat i) && (Z.of_nat i <=? 35791)
          then Z.of_nat i * 60000
          else 1.
Proof.
  intros Ht. destruct (nth_error l i) as [c|] eqn:Hc.
  - rewrite (staggered_nth l i c Hc) in Ht. injection Ht as <-.
    unfold due. cbn [delay]. apply timeout_of_index.
  - apply nth_error_None in Hc.
    assert (Hlen : List.length (staggered l) = List.length l).
    { rewrite <- (staggered_guests l) at 2. now rewrite length_map. }
    assert (Hsome : nth_error (staggered l) i <> None) by congruence.
    apply nth_error_Some in Hsome. lia.
Qed.

Lemma sorted_by_index (l : list Timer) :
  (forall i j a b,
      nth_error l i = Some a -> nth_error l j = Some b -> (i < j)%nat ->
      by_due a b) ->
  StronglySorted by_due l.
Proof.
  induction l as [|u l IH]; intros Hidx; [constructor|].
  constructor.
  - apply IH. intros i j a b Ha Hb Hij.
    apply (Hidx (S i) (S j)); auto. lia.
  - apply Forall_forall. intros v Hv.
    apply In_nth_error in Hv as [j Hj].
    apply (Hidx 0%nat (S j)); auto. lia.
Qed.

(** Up to 35792 guests, the staggered timers are set in the order they
    are due. *)
Lemma staggered_sorted_due (l : list Prisma.Convidados) :
  Z.of_nat (List.length l) <= 35792 ->
  StronglySorted by_due (staggered l).
Proof.
  intros Hn. apply sorted_by_index. intros i j a b Ha Hb Hij.
  assert (Hlen : List.length (staggered l) = List.length l).
  { rewrite <- (staggered_guests l) at 2. now rewrite length_map. }
  assert (Hj : (j < List.length (staggered l))%nat)
    by (apply nth_error_Some; congruence).
  unfold by_due. rewrite (staggered_due l i a Ha), (staggered_due l j b Hb).
  destruct (Z.leb_spec 1 (Z.of_nat i)), (Z.leb_spec (Z.of_nat i) 35791),
    (Z.leb_spec 1 (Z.of_nat j)), (Z.leb_spec (Z.of_nat j) 35791); cbn; lia.
Qed.

End NodeTimers.

(** ** The invitation broadcast *)

Section BroadcastFacts.

Import Gateway.

Variable BASE_URL : option string.

Lemma post_spec (f : Fetch) (n : Net) :
  post f n
  = (inr (match reply_at 0 n with
          | Answers _ (Some j) => Some j
          | _ => None
          end),
     mkNet (outbox n ++ [f]) (tl (replies n))
       (console n ++ printed (reply_at 0 n))).
Proof.
  unfold post, Async.catch, Async.then_, Async.bind, fetch, reply_at, next_reply.
  destruct (replies n) as [|[reason|code [j|]] rest]; cbn;
    rewrite ?app_nil_r; reflexivity.
Qed.

Lemma sendConvite_spec (c : Prisma.Convidados) (n : Net) :
  sendConvite BASE_URL c n
  = (inr tt,
     mkNet (outbox n ++ [sendMedia_call BASE_URL c; sendText_call BASE_URL c])
       (tl (tl (replies n)))
       (console n ++ printed (reply_at 0 n) ++ printed (reply_at 1 n))).
Proof.
  assert (Hnext : forall o k,
             reply_at 0 (mkNet o (tl (replies n)) k) = reply_at 1 n).
  { intros o k. unfold reply_at. cbn.
    now destruct (replies n) as [|o1 [|o2 rest]]. }
  unfold sendConvite, Async.bind. rewrite post_spec, post_spec, Hnext.
  cbn [outbox replies console]. unfold Async.ret.
  now rewrite <- !app_assoc.
Qed.

Lemma fire_all_outbox (queue : list Timer) (n : Net) :
  outbox (fold_left (fun n t => fire BASE_URL t n) queue n)
  = outbox n ++ flat_map (calls_of BASE_URL) (map guest queue).
Proof.
  revert n. induction queue as [|t queue IH]; intros n; cbn.
  - now rewrite app_nil_r.
  - rewrite IH. unfold fire. rewrite sendConvite_spec. cbn.
    now rewrite <- app_assoc.
Qed.

Lemma broadcast_spec (d : Prisma.Db) (n : Net) :
  Prisma.fails d = false ->
  broadcast BASE_URL d n
  = (inr (mkResponse 201 (JsonMessage "Convites sendo enviados")),
     Prisma.sent (Prisma.FindManyConfirmed false) d,
     run_timers BASE_URL
       (staggered (filter (Prisma.confirmed_is false) (Prisma.rows d))) n).
Proof.
  intros Hd. unfold broadcast. rewrite sendConvite_route_spec, Hd. reflexivity.
Qed.

Lemma run_timers_outbox (l : list Prisma.Convidados) (n : Net) :
  outbox (run_timers BASE_URL (staggered l) n)
  = outbox n ++ flat_map (calls_of BASE_URL) l.
Proof.
  unfold run_timers. rewrite fire_order_sorted.
  - now rewrite fire_all_outbox, staggered_guests.
  - apply staggered_from_sorted.
Qed.

Lemma confirmed_is_false_iff (c : Prisma.Convidados) :
  Prisma.confirmed_is false c = true <-> Prisma.confirmed c = Some false.
Proof.
  unfold Prisma.confirmed_is.
  destruct (Prisma.confirmed c) as [[|]|]; cbn; split; congruence.
Qed.

End BroadcastFacts.

Section BroadcastClaims.

Import Gateway.

Variable BASE_URL : option string.

(** C3, as the code and Node have it. When the lookup of the unconfirmed
    guests returns [n] guests, the route sets exactly [n] timers, the
    [i]-th (from 0) for the [i]-th guest with a delay of [i * 60000]
    milliseconds. Node takes a delay below 1 or above 2^31-1 as 1: guest 0
    is due after 1 millisecond, guest [i] from 1 to 35791 after
    [i * 60000], and a guest from index 35792 on after 1 millisecond.
    With at most 35792 guests the timers come due in guest-list order. *)
Theorem sendConvite_route_schedule (d : Prisma.Db) :
  Prisma.fails d = false ->
  let convidados := filter (Prisma.confirmed_is false) (Prisma.rows d) in
  let pending := timers (snd (sendConvite_route (mkServer d []))) in
  List.length pending = List.length convidados
  /\ map guest pending = convidados
  /\ (forall i c,
        nth_error convidados i = Some c ->
        nth_error pending i = Some (mkTimer c (Z.of_nat i * 60000)))
  /\ StronglySorted by_delay pending
  /\ (forall i t,
        nth_error pending i = Some t ->
        due t = if (1 <=? Z.of_nat i) && (Z.of_nat i <=? 35791)
                then Z.of_nat i * 60000
                else 1)
  /\ (Z.of_nat (List.length convidados) <= 35792 ->
      StronglySorted by_due pending /\ due_order pending = pending).
Proof.
  intros Hd convidados pending.
  assert (Hp : pending = staggered convidados).
  { unfold pending. now rewrite sendConvite_route_spec, Hd. }
  rewrite Hp. split; [|split; [|split; [|split; [|split]]]].
  - rewrite <- (staggered_guests convidados) at 2. now rewrite length_map.
  - apply staggered_guests.
  - intros i c. apply staggered_nth.
  - apply staggered_from_sorted.
  - intros i t Ht. apply staggered_due in Ht. exact Ht.
  - intros Hn. assert (Hs : StronglySorted by_due (staggered convidados))
      by now apply staggered_sorted_due.
    split; [exact Hs | now apply due_order_sorted].
Qed.

(** C4. Whatever the gateway does, the invitation of one guest makes two
    calls and in this order: the media message (the guest's phone, delay
    200, presence composing, the fixed image) to [sendMedia], then the
    text message (the guest's phone, delay 2000, presence composing) to
    [sendText], whose text is the invitation written out below with the
    guest's name in it, ending with the numbered menu written out
    below. *)
Theorem sendConvite_media_then_text (c : Prisma.Convidados) (n : Net) :
  fst (sendConvite BASE_URL c n) = inr tt
  /\ outbox (snd (sendConvite BASE_URL c n))
     = outbox n
       ++ [mkFetch (base_url BASE_URL ++ "/message/sendMedia/baby")%string
             "POST" myHeaders
             (JObj [("number", JStr (Prisma.phone c));
                    ("options", JObj [("delay", JNum 200);
                                      ("presence", JStr "composing");
                                      ("quotedMessageId", JNum 1)]);
                    ("mediaMessage",
                     JObj [("mediatype", JStr "image");
                           ("media", JStr "https://i.imgur.com/IDJTzgy.jpeg")])])
             "follow";
           mkFetch (base_url BASE_URL ++ "/message/sendText/baby")%string
             "POST" myHeaders
             (JObj [("number", JStr (Prisma.phone c));
                    ("options", JObj [("delay", JNum 2000);
                                      ("presence", JStr "composing")]);
                    ("textMessage",
                     JObj [("text",
                            JStr ("
*Convite especial*

Olá "
                                  ++ Prisma.nome c
                                  ++ ", com as bençãos de Deus e de nossos pais e familiares, te convidamos para celebrar o amor!

*Rafael e Letícia*

_Digite o número para a opção:_

*1* - Endereço/horário
*2* - Confirmar presença
*3* - Falar com noivos
*4* - Lista de presentes")%string)])])
             "follow"]
  /\ text (Prisma.nome c)
     = ("
*Convite especial*

Olá "
        ++ Prisma.nome c
        ++ ", com as bençãos de Deus e de nossos pais e familiares, te convidamos para celebrar o amor!

*Rafael e Letícia*

"
        ++ "_Digite o número para a opção:_

*1* - Endereço/horário
*2* - Confirmar presença
*3* - Falar com noivos
*4* - Lista de presentes")%string.
Proof. rewrite sendConvite_spec. repeat split. Qed.

(** C5. When the lookup succeeds, the guests the route sets a timer for
    are the rows whose [confirmed] is [false] and no other (a row whose
    [confirmed] is [true] gets none), and the gateway calls of the whole
    broadcast are those of these guests. When no row has [confirmed]
    false, no timer is set, no call is made and the answer is the
    201. *)
Theorem sendConvite_route_targets (d : Prisma.Db) (n : Net) :
  Prisma.fails d = false ->
  let pending := timers (snd (sendConvite_route (mkServer d []))) in
  (forall c, In c (map guest pending)
             <-> In c (Prisma.rows d) /\ Prisma.confirmed c = Some false)
  /\ (forall c, Prisma.confirmed c = Some true -> ~ In c (map guest pending))
  /\ outbox (snd (broadcast BASE_URL d n))
     = outbox n
       ++ flat_map (calls_of BASE_URL)
            (filter (Prisma.confirmed_is false) (Prisma.rows d))
  /\ ((forall c, In c (Prisma.rows d) -> Prisma.confirmed c <> Some false) ->
      pending = []
      /\ broadcast BASE_URL d n
         = (inr (mkResponse 201 (JsonMessage "Convites sendo enviados")),
            Prisma.sent (Prisma.FindManyConfirmed false) d, n)).
Proof.
  intros Hd pending.
  assert (Hp : pending
               = staggered (filter (Prisma.confirmed_is false) (Prisma.rows d))).
  { unfold pending. now rewrite sendConvite_route_spec, Hd. }
  assert (Hin : forall c, In c (map guest pending)
                          <-> In c (Prisma.rows d)
                              /\ Prisma.confirmed c = Some false).
  { intros c. rewrite Hp, staggered_guests, filter_In.
    now rewrite confirmed_is_false_iff. }
  split; [exact Hin|]. split; [|split].
  - intros c Hc Hmem. apply Hin in Hmem as [_ Hmem]. congruence.
  - rewrite broadcast_spec by assumption. cbn. apply run_timers_outbox.
  - intros Hnone.
    assert (Hempty : filter (Prisma.confirmed_is false) (Prisma.rows d) = []).
    { destruct (filter _ _) as [|c l] eqn:Hf; [reflexivity|].
      assert (Hc : In c (filter (Prisma.confirmed_is false) (Prisma.rows d)))
        by (rewrite Hf; now left).
      apply filter_In in Hc as [Hc1 Hc2].
      apply confirmed_is_false_iff in Hc2. now destruct (Hnone c Hc1). }
    split; [now rewrite Hp, Hempty|].
    rewrite broadcast_spec by assumption. now rewrite Hempty.
Qed.

(** C6, as the code has it. When the lookup of the unconfirmed guests
    succeeds, the answer of the route is HTTP 201 with the message
    [Convites sendo enviados], whatever the gateway does then and later:
    the answer is the one the handler gives before any timer runs, and
    the invitation of a guest never throws. A call that rejects (the
    gateway is not reached, or its answer is not JSON) is printed with
    [console.error]; an answer in JSON, an error included, is dropped
    and nothing is printed. *)
Theorem sendConvite_route_answers (d : Prisma.Db) (n : Net) :
  Prisma.fails d = false ->
  fst (fst (broadcast BASE_URL d n))
  = inr (mkResponse 201 (JsonMessage "Convites sendo enviados"))
  /\ fst (sendConvite_route (mkServer d []))
     = inr (mkResponse 201 (JsonMessage "Convites sendo enviados"))
  /\ (forall c n',
        fst (sendConvite BASE_URL c n') = inr tt
        /\ console (snd (sendConvite BASE_URL c n'))
           = console n' ++ printed (reply_at 0 n') ++ printed (reply_at 1 n')).
Proof.
  intros Hd. split; [|split].
  - now rewrite broadcast_spec.
  - now rewrite sendConvite_route_spec, Hd.
  - intros c n'. now rewrite sendConvite_spec.
Qed.

End BroadcastClaims.

(** C3, as the spec words it, fails on a table of 35793 unconfirmed
    guests: the timer of the guest at index 35791 is due after 2147460000
    milliseconds and that of the guest at index 35792, set with
    2147520000, after 1 millisecond, so the later guest fires earlier and
    the timers do not come due in guest-list order. *)
Lemma sendConvite_route_overflow :
  nth_error (timers (snd (sendConvite_route (mkServer (Crowd.table 35793) []))))
    (Z.to_nat 35791)
  = Some (mkTimer (Crowd.guest 35792) 2147460000)
  /\ nth_error (timers (snd (sendConvite_route (mkServer (Crowd.table 35793) []))))
       (Z.to_nat 35792)
     = Some (mkTimer (Crowd.guest 35793) 2147520000)
  /\ due (mkTimer (Crowd.guest 35792) 2147460000) = 2147460000
  /\ due (mkTimer (Crowd.guest 35793) 2147520000) = 1
  /\ due_order (timers (snd (sendConvite_route (mkServer (Crowd.table 35793) []))))
     <> timers (snd (sendConvite_route (mkServer (Crowd.table 35793) []))).
Proof.
  set (pending := timers (snd (sendConvite_route (mkServer (Crowd.table 35793) [])))).
  assert (Hp : pending
               = staggered (filter (Prisma.confirmed_is false)
                              (Prisma.rows (Crowd.table 35793)))).
  { unfold pending. rewrite sendConvite_route_spec. reflexivity. }
  assert (Ha : nth_error pending (Z.to_nat 35791)
               = Some (mkTimer (Crowd.guest 35792) 2147460000)).
  { rewrite Hp.
    rewrite (staggered_nth _ (Z.to_nat 35791) (Crowd.guest 35792));
      [reflexivity | vm_compute; reflexivity]. }
  assert (Hb : nth_error pending (Z.to_nat 35792)
               = Some (mkTimer (Crowd.guest 35793) 2147520000)).
  { rewrite Hp.
    rewrite (staggered_nth _ (Z.to_nat 35792) (Crowd.guest 35793));
      [reflexivity | vm_compute; reflexivity]. }
  split; [exact Ha|]. split; [exact Hb|].
  split; [reflexivity|]. split; [reflexivity|].
  intros Heq. pose proof (due_order_is_sorted pending) as Hs. rewrite Heq in Hs.
  assert (Hlt : (Z.to_nat 35791 < Z.to_nat 35792)%nat) by lia.
  pose proof (sorted_nth_error pending _ _ _ _ Hs Ha Hb Hlt) as Hdue.
  unfold by_due in Hdue. vm_compute in Hdue. now apply Hdue.
Qed.

(** C6, as the spec words it, fails in three ways. On the sample table,
    with [BASE_URL] set and a gateway that answers each of the four calls
    with an error in JSON, the message of the answer is not
    [invitations being sent], and none of the four errors is printed.
    And when the storage is down, the lookup of the guests rejects and
    the route gives no 201. *)
Lemma sendConvite_route_message_differs :
  fst (fst (broadcast Sample.base Sample.table Sample.failing_gateway))
  <> inr (mkResponse 201 (JsonMessage "invitations being sent"))
  /\ List.length
       (Gateway.outbox (snd (broadcast Sample.base Sample.table Sample.failing_gateway)))
     = 4%nat
  /\ Gateway.console (snd (broadcast Sample.base Sample.table Sample.failing_gateway))
     = []
  /\ fst (fst (broadcast Sample.base Sample.down Gateway.quiet))
     = inl (PrismaClientError "convidados.findMany").
Proof.
  split; [vm_compute; discriminate|]. split; [reflexivity|].
  split; reflexivity.
Qed.

(** ** The rows an import adds *)

Section Imported.

Import Prisma.

Lemma for_of_added (body : list Dto.Convidado) (d : Db) :
  exists added,
    rows (snd (Async.for_of body registrar d)) = rows d ++ added
    /\ Forall (fun c => confirmed c = Some false) added.
Proof.
  revert d. induction body as [|c body IH]; intros d.
  - exists []. cbn. now rewrite app_nil_r.
  - cbn. unfold Async.bind.
    pose proof (registrar_rows c d) as Hc.
    destruct (registrar c d) as [[e|[]] d1]; cbn in Hc; cbv beta iota; cbn [snd].
    + destruct Hc as [-> | [_ [r [-> [_ Hr]]]]].
      * exists []. cbn. now rewrite app_nil_r.
      * exists [r]. cbn. split; [reflexivity|]. now constructor.
    + destruct (IH d1) as [added [Hrows Hadded]]. rewrite Hrows.
      destruct Hc as [-> | [_ [r [-> [_ Hr]]]]].
      * now exists added.
      * exists (r :: added). rewrite <- app_assoc. cbn.
        split; [reflexivity|]. now constructor.
Qed.

End Imported.

(** ** Buttons *)

Section ButtonsFacts.

Variable World : Type.
Variables Instance Data Button Props Reply : Type.
Variable new_SendButtonsDto : Data -> Exception + Props.
Variable buttons : Props -> list Button.
Variable validate : Button -> option string.
Variable sendButtons : Instance -> Props -> Async.M World Exception Reply.

(** The loop stops at the first button whose [validate] returns an
    error, and throws its message; it touches nothing. *)
Lemma validate_buttons_spec (bs : list Button) (w : World) :
  (Forall (fun b => validate b = None) bs
   /\ validate_buttons World Button validate bs w = (inr tt, w))
  \/ (exists before b after message,
        bs = before ++ b :: after
        /\ Forall (fun b => validate b = None) before
        /\ validate b = Some message
        /\ validate_buttons World Button validate bs w
           = (inl (BadRequestException message), w)).
Proof.
  induction bs as [|b bs IH].
  - left. split; [constructor | reflexivity].
  - cbn. destruct (validate b) as [message|] eqn:Hb.
    + right. exists [], b, bs, message. repeat split; auto.
    + destruct IH as [[Hall Hrun] | [before [b' [after [message [-> [Hbefore [Hb' Hrun]]]]]]]].
      * left. split; [now constructor | assumption].
      * right. exists (b :: before), b', after, message.
        repeat split; auto.
Qed.

(** C7. The buttons are validated one by one, in order. When one of them
    fails its validation, the request is rejected with a
    [BadRequestException] carrying the message of the first that fails,
    and the world is left as it was, whatever the controller is: the
    controller, and with it the gateway, is not reached. When all pass,
    the outcome is the controller's. *)
Theorem sendButtons_execute_rejects
  (instance : Instance) (data : Data) (props : Props) (w : World) :
  new_SendButtonsDto data = inr props ->
  (Exists (fun b => validate b <> None) (buttons props) ->
   exists before b after message,
     buttons props = before ++ b :: after
     /\ Forall (fun b => validate b = None) before
     /\ validate b = Some message
     /\ sendButtons_execute World Instance Data Button Props Reply
          new_SendButtonsDto buttons validate sendButtons instance data w
        = (inl (BadRequestException message), w))
  /\ (Forall (fun b => validate b = None) (buttons props) ->
      sendButtons_execute World Instance Data Button Props Reply
        new_SendButtonsDto buttons validate sendButtons instance data w
      = sendButtons instance props w).
Proof.
  intros Hprops.
  unfold sendButtons_execute, Async.try_catch, Async.catch, Async.bind.
  rewrite Hprops. cbv beta iota.
  destruct (validate_buttons_spec (buttons props) w)
    as [[Hall Hrun] | [before [b [after [message [Hsplit [Hbefore [Hb Hrun]]]]]]]];
    rewrite Hrun; cbn; split.
  - intros Hex. apply Exists_exists in Hex as [b [Hb Hbad]].
    rewrite Forall_forall in Hall. now destruct Hbad; apply Hall.
  - reflexivity.
  - intros _. now exists before, b, after, message.
  - intros Hall. rewrite Hsplit in Hall.
    apply Forall_app in Hall as [_ Hall].
    apply Forall_inv in Hall. congruence.
Qed.

(** An error thrown by the constructor is rejected the same way. *)
Lemma sendButtons_execute_constructor
  (instance : Instance) (data : Data) (e : Exception) (w : World) :
  new_SendButtonsDto data = inl e ->
  sendButtons_execute World Instance Data Button Props Reply
    new_SendButtonsDto buttons validate sendButtons instance data w
  = (inl (BadRequestException (message_of e)), w).
Proof.
  intros He.
  unfold sendButtons_execute, Async.try_catch, Async.catch, Async.bind.
  now rewrite He.
Qed.

End ButtonsFacts.

(** ** Uploaded files *)

Section MediaFileFacts.

Variable World : Type.
Variable Reply : Type.
Variable guards : list (Middleware World).
Variable uploadFile_single : Middleware World.
Variable sendMediaFile : Request -> Async.M World Exception Reply.
Variable sendWhatsAppAudioFile : Request -> Async.M World Exception Reply.

Lemma chain_app (ms ns : list (Middleware World)) (req : Request) (w : World) :
  chain World (ms ++ ns) req w
  = Async.bind (chain World ms req) (chain World ns) w.
Proof.
  revert req w. induction ms as [|m ms IH]; intros req w; [reflexivity|].
  cbn. unfold Async.bind. destruct (m req w) as [[e|req1] w1]; [reflexivity|].
  rewrite IH. reflexivity.
Qed.

Lemma validateMedia_invalid (req : Request) (w : World) :
  file req = None
  \/ (exists f, file req = Some f /\ fieldname f <> "attachment") ->
  validateMedia World req w = (inl (BadRequestException "Invalid File"), w).
Proof.
  unfold validateMedia. intros [-> | [f [-> Hf]]]; [reflexivity|].
  apply String.eqb_neq in Hf. now rewrite Hf.
Qed.

(** With a file in the [attachment] field the request goes on, its
    empty [presence] cleared. *)
Lemma validateMedia_valid (req : Request) (f : UploadedFile) (w : World) :
  file req = Some f ->
  fieldname f = "attachment" ->
  validateMedia World req w
  = (inr (if isEmpty (presence req) then mkRequest (file req) None else req), w).
Proof.
  unfold validateMedia. intros Hfile Hf. rewrite Hfile, Hf. cbn.
  now destruct (isEmpty (presence req)).
Qed.

(** C10, as the code and multer have it. Once the guards have let the
    request through: when it carries no file (a multipart body without a
    file part, or a request that is not multipart), both file routes end
    with [BadRequestException "Invalid File"], thrown by [validateMedia];
    when the first file of its multipart body is in a field other than
    [attachment], both end with multer's [Unexpected field] error, before
    [validateMedia] runs. In both cases the outcome is the same whatever
    the last handler is, and the world is the one the guards left: the
    controller, and with it the gateway, is not reached. *)
Theorem file_routes_reject
  (body : option Multipart) (req req1 : Request) (w w1 : World) :
  chain World guards req w = (inr req1, w1) ->
  ((body = None /\ file req1 = None
    \/ exists b, body = Some b /\ files b = []) ->
   sendMediaFile_route World Reply guards (single World "attachment" body)
     sendMediaFile req w
   = (inl (BadRequestException "Invalid File"), w1)
   /\ sendWhatsAppAudioFile_route World Reply guards (single World "attachment" body)
        sendWhatsAppAudioFile req w
      = (inl (BadRequestException "Invalid File"), w1))
  /\ (forall b f more,
        body = Some b ->
        files b = f :: more ->
        fieldname f <> "attachment" ->
        sendMediaFile_route World Reply guards (single World "attachment" body)
          sendMediaFile req w
        = (inl (ThrownError "Unexpected field"), w1)
        /\ sendWhatsAppAudioFile_route World Reply guards
             (single World "attachment" body) sendWhatsAppAudioFile req w
           = (inl (ThrownError "Unexpected field"), w1)).
Proof.
  intros Hguards.
  assert (Hchain : forall outcome,
             Async.bind (single World "attachment" body req1)
               (fun r => validateMedia World r) w1 = (inl outcome, w1) ->
             chain World
               (guards ++ [single World "attachment" body; validateMedia World])
               req w
             = (inl outcome, w1)).
  { intros outcome Hrun. rewrite chain_app. unfold Async.bind at 1.
    rewrite Hguards. cbn. unfold Async.bind in *.
    destruct (single World "attachment" body req1 w1) as [[e|r] w2];
      [exact Hrun|].
    destruct (validateMedia World r w2) as [[e|r'] w3]; [exact Hrun | discriminate]. }
  assert (Hroutes : forall outcome,
             Async.bind (single World "attachment" body req1)
               (fun r => validateMedia World r) w1 = (inl outcome, w1) ->
             sendMediaFile_route World Reply guards (single World "attachment" body)
               sendMediaFile req w
             = (inl outcome, w1)
             /\ sendWhatsAppAudioFile_route World Reply guards
                  (single World "attachment" body) sendWhatsAppAudioFile req w
                = (inl outcome, w1)).
  { intros outcome Hrun. apply Hchain in Hrun.
    unfold sendMediaFile_route, sendWhatsAppAudioFile_route.
    unfold Async.bind at 1 3. now rewrite Hrun. }
  split.
  - intros Hnone. apply Hroutes. unfold Async.bind, single.
    destruct Hnone as [[-> Hfile] | [b [-> Hfiles]]].
    + unfold Async.ret. now rewrite validateMedia_invalid by now left.
    + rewrite Hfiles. unfold Async.ret.
      now rewrite validateMedia_invalid by now left.
  - intros b f more -> Hfiles Hfield. apply Hroutes.
    unfold Async.bind, single. rewrite Hfiles.
    apply String.eqb_neq in Hfield. now rewrite Hfield.
Qed.

End MediaFileFacts.

(** C10 with the field name left to [validateMedia] fails on a multipart
    request whose file is in the field [file]: multer refuses it with
    [Unexpected field], and the route does not end with
    [BadRequestException "Invalid File"]. *)
Lemma file_routes_wrong_field :
  sendMediaFile_route Gateway.Net (option Gateway.Json) []
    (single Gateway.Net "attachment" Cases.wrong_field) Sample.sendFile
    (mkRequest None None) Gateway.quiet
  = (inl (ThrownError "Unexpected field"), Gateway.quiet)
  /\ sendMediaFile_route Gateway.Net (option Gateway.Json) []
       (single Gateway.Net "attachment" Cases.wrong_field) Sample.sendFile
       (mkRequest None None) Gateway.quiet
     <> (inl (BadRequestException "Invalid File"), Gateway.quiet).
Proof. split; [reflexivity | discriminate]. Qed.

(** * The properties at sample inputs *)

Section Samples.

Import Sample.

(** Importing Ana, then Ana and Bia, into an empty table leaves no two
    guests with one phone; importing Ana again changes nothing. *)
Lemma registrarConvidados_phone_unique_sample :
  NoDup (Prisma.phones Prisma.empty)
  /\ NoDup (Prisma.phones (bulk_imports [[ana]; [ana; bia]] Prisma.empty))
  /\ Prisma.rows
       (snd (registrarConvidados [ana] (snd (registrarConvidados [ana] Prisma.empty))))
     = Prisma.rows (snd (registrarConvidados [ana] Prisma.empty)).
Proof.
  pose proof (registrarConvidados_phone_unique [[ana]; [ana; bia]] Prisma.empty
                (NoDup_nil _)) as [Hunique _].
  pose proof (registrarConvidados_phone_unique [] Prisma.empty (NoDup_nil _))
    as [_ [_ [_ Hagain]]].
  split; [constructor|]. split; [exact Hunique|].
  exact (Hagain [ana] _ _ eq_refl).
Defined.

(** The report of the sample table: four guests, one confirmed. *)
Lemma confirmados_report_sample :
  Prisma.fails table = false
  /\ exists r,
       fst (confirmados_route table) = inr (mkResponse 201 (JsonConfirmacoes r))
       /\ totalConvites r = 4
       /\ totalConfirmados r = 1.
Proof.
  split; [reflexivity|].
  destruct (confirmados_report table) as [_ [_ Hreport]].
  destruct (Hreport eq_refl) as [r [Hr [Hall [Hconf _]]]].
  exists r. split; [exact Hr|]. split; [exact Hall | exact Hconf].
Defined.

(** The storage fails at Bia's lookup: Caio is not reached. *)
Lemma registrarConvidados_aborts_sample :
  Async.for_of [ana] registrar flaky
  = (inr tt, snd (Async.for_of [ana] registrar flaky))
  /\ fst (registrar bia (snd (Async.for_of [ana] registrar flaky)))
     = inl (PrismaClientError "convidados.findFirst")
  /\ registrarConvidados ([ana] ++ bia :: [caio]) flaky
     = (inl (PrismaClientError "convidados.findFirst"),
        snd (registrar bia (snd (Async.for_of [ana] registrar flaky)))).
Proof.
  split; [reflexivity|]. split; [reflexivity|].
  exact (proj1 (registrarConvidados_aborts [ana] [caio] bia flaky
                  (snd (Async.for_of [ana] registrar flaky))
                  (PrismaClientError "convidados.findFirst")
                  eq_refl eq_refl)).
Defined.

(** The sample table has two unconfirmed guests: two timers, set with 0
    and 60000 milliseconds, which come due in that order. *)
Lemma sendConvite_route_schedule_sample :
  Prisma.fails table = false
  /\ List.length (timers (snd (sendConvite_route (mkServer table [])))) = 2%nat
  /\ Z.of_nat (List.length (filter (Prisma.confirmed_is false) (Prisma.rows table)))
     <= 35792
  /\ due_order (timers (snd (sendConvite_route (mkServer table []))))
     = timers (snd (sendConvite_route (mkServer table []))).
Proof.
  split; [reflexivity|].
  destruct (sendConvite_route_schedule table eq_refl) as [Hn [_ [_ [_ [_ Horder]]]]].
  assert (Hfew : Z.of_nat (List.length (filter (Prisma.confirmed_is false)
                                          (Prisma.rows table))) <= 35792)
    by (cbn; lia).
  split; [exact Hn|]. split; [exact Hfew|]. exact (proj2 (Horder Hfew)).
Defined.

(** On a table of confirmed guests the broadcast calls nobody and
    answers. *)
Lemma sendConvite_route_targets_sample :
  Prisma.fails all_confirmed = false
  /\ broadcast None all_confirmed bad_gateway
     = (inr (mkResponse 201 (JsonMessage "Convites sendo enviados")),
        Prisma.sent (Prisma.FindManyConfirmed false) all_confirmed,
        bad_gateway).
Proof.
  split; [reflexivity|].
  destruct (sendConvite_route_targets None all_confirmed bad_gateway eq_refl)
    as [_ [_ [_ Hnone]]].
  apply Hnone. intros c [<- | []]. discriminate.
Defined.

(** With a gateway that fails, the answer is the same. *)
Lemma sendConvite_route_answers_sample :
  Prisma.fails table = false
  /\ fst (fst (broadcast base table bad_gateway))
     = inr (mkResponse 201 (JsonMessage "Convites sendo enviados")).
Proof.
  split; [reflexivity|].
  exact (proj1 (sendConvite_route_answers base table bad_gateway eq_refl)).
Defined.

(** The second of three buttons has no text: rejected, nothing sent. *)
Lemma sendButtons_execute_rejects_sample :
  Exists (fun b => validate b <> None) ["Sim"; ""; "Talvez"]
  /\ exists before b after message,
       ["Sim"; ""; "Talvez"] = before ++ b :: after
       /\ Forall (fun b => validate b = None) before
       /\ validate b = Some message
       /\ sendButtons_execute Gateway.Net string (list string) string
            (list string) (option Gateway.Json)
            (fun data => inr data) (fun props => props) validate sendButtons
            "baby" ["Sim"; ""; "Talvez"] Gateway.quiet
          = (inl (BadRequestException message), Gateway.quiet).
Proof.
  assert (Hbad : Exists (fun b => validate b <> None) ["Sim"; ""; "Talvez"]).
  { apply Exists_cons_tl, Exists_cons_hd. discriminate. }
  split; [exact Hbad|].
  exact (proj1 (sendButtons_execute_rejects Gateway.Net string (list string)
                  string (list string) (option Gateway.Json)
                  (fun data => inr data) (fun props => props) validate
                  sendButtons "baby" ["Sim"; ""; "Talvez"]
                  ["Sim"; ""; "Talvez"] Gateway.quiet eq_refl) Hbad).
Defined.

(** A multipart request with no file, and one with a file in another
    field. *)
Lemma file_routes_reject_sample :
  sendMediaFile_route Gateway.Net (option Gateway.Json) []
    (single Gateway.Net "attachment" Cases.no_file) sendFile
    (mkRequest None None) Gateway.quiet
  = (inl (BadRequestException "Invalid File"), Gateway.quiet)
  /\ sendWhatsAppAudioFile_route Gateway.Net (option Gateway.Json) []
       (single Gateway.Net "attachment" Cases.wrong_field) sendFile
       (mkRequest None None) Gateway.quiet
     = (inl (ThrownError "Unexpected field"), Gateway.quiet).
Proof.
  split.
  - refine (proj1 (proj1 (file_routes_reject Gateway.Net (option Gateway.Json) []
                            sendFile sendFile Cases.no_file (mkRequest None None)
                            (mkRequest None None) Gateway.quiet Gateway.quiet
                            eq_refl) _)).
    right. eexists. split; reflexivity.
  - refine (proj2 (proj2 (file_routes_reject Gateway.Net (option Gateway.Json) []
                            sendFile sendFile Cases.wrong_field (mkRequest None None)
                            (mkRequest None None) Gateway.quiet Gateway.quiet
                            eq_refl)
                     _ (mkUploadedFile "file" "a.ogg") [] eq_refl eq_refl _)).
    discriminate.
Defined.

(** What [VARCHAR(3)] keeps: trailing spaces beyond three characters are
    dropped, and a character of two bytes counts once. *)
Example varchar_examples :
  varchar 3 "abc   " = "abc"
  /\ varchar 3 "ab" = "ab"
  /\ varchar 3 "Olá" = "Olá"
  /\ varchar 3 "Olá  " = "Olá".
Proof. repeat split. Qed.

(** A tuple whose [presente] is [null] is stored with [presente] NULL,
    one without the key with ['M']. *)
Example presente_null_or_default :
  map Prisma.presente
    (Prisma.rows
       (snd (registrarConvidados
               [Dto.mkConvidado "Ana" "+5511999999999" Null; bia] Prisma.empty)))
  = [None; Some "M"].
Proof. reflexivity. Qed.

(** Importing Ana twice leaves one guest with her phone; the report then
    counts one guest, none confirmed. *)
Example import_ana_twice :
  Prisma.phones (bulk_imports [[ana]; [ana]] Prisma.empty) = ["+5511999999999"]
  /\ fst (confirmados_route (bulk_imports [[ana]; [ana]] Prisma.empty))
     = inr (mkResponse 201
              (JsonConfirmacoes (mkConfirmacoes 1 0 []))).
Proof. split; reflexivity. Qed.

(** The storage operations of that double import: the second request
    looks Ana up and does not insert. *)
Example import_ana_twice_trace :
  Prisma.trace (bulk_imports [[ana]; [ana]] Prisma.empty)
  = [Prisma.FindFirstPhone "+5511999999999";
     Prisma.Create "Ana" "+5511999999999" (Text "S");
     Prisma.FindMany;
     Prisma.FindFirstPhone "+5511999999999";
     Prisma.FindMany].
Proof. reflexivity. Qed.

(** The broadcast over the sample table with a failing gateway: four
    calls, Ana's two then Duda's two, and the two failures printed. *)
Example broadcast_sample :
  map Gateway.url (Gateway.outbox (snd (broadcast (Some "http://gw") table bad_gateway)))
  = ["http://gw/message/sendMedia/baby"; "http://gw/message/sendText/baby";
     "http://gw/message/sendMedia/baby"; "http://gw/message/sendText/baby"]
  /\ Gateway.console (snd (broadcast (Some "http://gw") table bad_gateway))
     = [FetchError "ECONNREFUSED"; FetchError "Unexpected token in JSON"].
Proof. split; reflexivity. Qed.

(** A file in the [attachment] field reaches the controller. *)
Example sendMediaFile_route_accepts :
  fst (sendMediaFile_route Gateway.Net (option Gateway.Json) [] upload sendFile
         (mkRequest (Some (mkUploadedFile "attachment" "a.png")) (Some ""))
         Gateway.quiet)
  = inr (201, Some (Gateway.JObj [])).
Proof. reflexivity. Qed.

End Samples.

(** * Further properties *)

(** ** Bulk import on a storage that does not fail *)

Section ImportFacts.

Import Prisma.

Lemma healthy_fails (d : Db) : healthy d -> fails d = false.
Proof.
  unfold healthy, fails. intros Hd.
  destruct (health d) as [|[|] h]; auto.
  apply Forall_inv in Hd. discriminate.
Qed.

Lemma healthy_sent (q : Query) (d : Db) : healthy d -> healthy (sent q d).
Proof.
  unfold healthy. cbn. intros Hd.
  destruct (health d); [constructor | now apply Forall_inv_tail in Hd].
Qed.

Lemma existsb_phones (p : string) (l : list Convidados) :
  existsb (String.eqb p) (map phone l)
  = match find (fun r => String.eqb (phone r) p) l with
    | Some _ => true
    | None => false
    end.
Proof.
  induction l as [|r l IH]; [reflexivity|].
  cbn. rewrite String.eqb_sym. now destruct (String.eqb (phone r) p).
Qed.

(** One turn of the loop on such a storage. *)
Lemma registrar_healthy (c : Dto.Convidado) (d : Db) :
  healthy d ->
  exists d1,
    registrar c d = (inr tt, d1)
    /\ healthy d1
    /\ today d1 = today d
    /\ ((exists x, find (fun r => String.eqb (phone r) (Dto.phone c)) (rows d) = Some x)
        /\ rows d1 = rows d /\ serial d1 = serial d
        \/ find (fun r => String.eqb (phone r) (Dto.phone c)) (rows d) = None
           /\ rows d1
              = rows d ++ [new_row d (Dto.nome c) (Dto.phone c) (Dto.presente c)]
           /\ serial d1 = serial d + 1).
Proof.
  intros Hd. pose proof (healthy_fails d Hd) as Hf.
  pose proof (healthy_sent (FindFirstPhone (Dto.phone c)) d Hd) as Hd1.
  pose proof (healthy_fails _ Hd1) as Hf1.
  destruct (registrar_spec c d); try congruence.
  - eexists. split; [reflexivity|]. split; [assumption|].
    split; [reflexivity|]. left. eauto.
  - eexists. split; [reflexivity|]. split; [|split; [reflexivity|]].
    + exact (healthy_sent (Create (Dto.nome c) (Dto.phone c) (Dto.presente c)) _ Hd1).
    + right. split; [assumption|]. split; reflexivity.
Qed.

Lemma for_of_healthy (body : list Dto.Convidado) (d : Db) :
  healthy d ->
  exists d',
    Async.for_of body registrar d = (inr tt, d')
    /\ healthy d'
    /\ today d' = today d
    /\ serial d <= serial d'
    /\ phones d' = phones d ++ fresh_phones (phones d) (map Dto.phone body).
Proof.
  revert d. induction body as [|c body IH]; intros d Hd.
  - exists d. cbn. rewrite app_nil_r. repeat split; auto. lia.
  - destruct (registrar_healthy c d Hd) as [d1 [Hrun [Hd1 [Ht Hcase]]]].
    destruct (IH d1 Hd1) as [d' [Hloop [Hd' [Ht' [Hs' Hp']]]]].
    exists d'. cbn [Async.for_of]. unfold Async.bind. rewrite Hrun.
    split; [exact Hloop|]. split; [exact Hd'|]. split; [congruence|].
    cbn [map fresh_phones]. unfold phones at 3. rewrite existsb_phones.
    destruct Hcase as [[[x Hx] [Hr Hs]] | [Hx [Hr Hs]]]; rewrite Hx.
    + split; [lia|]. rewrite Hp'. unfold phones. now rewrite Hr.
    + split; [lia|]. rewrite Hp'. unfold phones. rewrite Hr, map_app. cbn.
      now rewrite <- app_assoc.
Qed.

Lemma for_of_storage_error (body : list Dto.Convidado) (d d' : Db) (e : Exception) :
  Async.for_of body registrar d = (inl e, d') ->
  exists message, e = PrismaClientError message.
Proof.
  revert d. induction body as [|c body IH]; intros d Hrun; [discriminate|].
  cbn in Hrun. unfold Async.bind in Hrun.
  pose proof (registrar_spec c d) as Hc.
  destruct (registrar c d) as [[e1|[]] d1].
  - injection Hrun as <- <-. inversion Hc; eauto.
  - now apply (IH d1).
Qed.

Lemma registrarConvidados_healthy (body : list Dto.Convidado) (d : Db) :
  healthy d -> healthy (snd (registrarConvidados body d)).
Proof.
  intros Hd. destruct (for_of_healthy body d Hd) as [d1 [Hloop [Hd1 _]]].
  unfold registrarConvidados, Async.bind. rewrite Hloop.
  unfold findMany, query. rewrite (healthy_fails d1 Hd1). cbn.
  now apply healthy_sent.
Qed.

(** X1. For a body that is an array of tuples as [Dto.Convidado] has
    them (the route checks nothing, and a body of another shape makes it
    throw on its own): the import is rejected only by the storage. When
    no storage operation fails it answers 201 with the whole table as the
    import leaves it; and whenever it is rejected, the error is the
    storage's and some operation was due to fail. *)
Theorem registrarConvidados_succeeds (body : list Dto.Convidado) (d : Db) :
  (healthy d ->
   exists d',
     registrarConvidados body d
     = (inr (mkResponse 201 (JsonConvidados (rows d'))), d')
     /\ healthy d')
  /\ (forall e d',
        registrarConvidados body d = (inl e, d') ->
        (exists message, e = PrismaClientError message) /\ ~ healthy d).
Proof.
  assert (Hok : healthy d ->
                exists d',
                  registrarConvidados body d
                  = (inr (mkResponse 201 (JsonConvidados (rows d'))), d')
                  /\ healthy d').
  { intros Hd. destruct (for_of_healthy body d Hd) as [d1 [Hloop [Hd1 _]]].
    exists (sent FindMany d1). unfold registrarConvidados, Async.bind.
    rewrite Hloop. unfold findMany, query. rewrite (healthy_fails d1 Hd1).
    split; [reflexivity | now apply healthy_sent]. }
  split; [exact Hok|]. intros e d' Hrun. split.
  - unfold registrarConvidados, Async.bind in Hrun.
    destruct (Async.for_of body registrar d) as [[e1|[]] d1] eqn:Hloop.
    + injection Hrun as <- <-. now apply for_of_storage_error in Hloop.
    + unfold findMany, query in Hrun. destruct (fails d1); [|discriminate].
      injection Hrun as <- _. eauto.
  - intros Hd. destruct (Hok Hd) as [d2 [Hrun2 _]]. congruence.
Qed.

(** X2. When no storage operation fails, the phones of the table after
    the import are those it had, in order, followed by the phones of the
    body that were not there, each once, in the order of their first
    occurrence in the body. *)
Theorem registrarConvidados_phones (body : list Dto.Convidado) (d : Db) :
  healthy d ->
  phones (snd (registrarConvidados body d))
  = phones d ++ fresh_phones (phones d) (map Dto.phone body).
Proof.
  intros Hd. destruct (for_of_healthy body d Hd) as [d1 [Hloop [_ [_ [_ Hp]]]]].
  unfold phones at 1. rewrite registrarConvidados_rows, Hloop. exact Hp.
Qed.

End ImportFacts.

(** ** What an import keeps and what it stores *)

Section ImportKeeps.

Import Prisma.

Lemma find_app_some {A} (f : A -> bool) (l l' : list A) (x : A) :
  find f l = Some x -> find f (l ++ l') = Some x.
Proof.
  induction l as [|a l IH]; [discriminate|].
  cbn. destruct (f a); [trivial | exact IH].
Qed.

Lemma find_app_none {A} (f : A -> bool) (l l' : list A) :
  find f l = None -> find f (l ++ l') = find f l'.
Proof.
  induction l as [|a l IH]; [reflexivity|].
  cbn. destruct (f a); [discriminate | exact IH].
Qed.

(** X3. An import never changes the guest a phone belongs to: the row a
    lookup by phone found before the import is the row it finds after it,
    whatever the body holds for that phone and whatever the storage
    does. *)
Theorem registrarConvidados_lookup_stable
  (body : list Dto.Convidado) (d : Db) (p : string) (r : Convidados) :
  find (fun c => String.eqb (phone c) p) (rows d) = Some r ->
  find (fun c => String.eqb (phone c) p) (rows (snd (registrarConvidados body d)))
  = Some r.
Proof.
  intros Hr. rewrite registrarConvidados_rows.
  destruct (for_of_added body d) as [added [-> _]].
  now apply find_app_some.
Qed.

Lemma not_in_phones_find (p : string) (l : list Convidados) :
  ~ In p (map phone l) -> find (fun c => String.eqb (phone c) p) l = None.
Proof.
  intros Hp. destruct (find _ l) as [x|] eqn:Hx; [|reflexivity].
  apply find_some in Hx as [Hin Heq]. apply String.eqb_eq in Heq.
  destruct Hp. apply in_map_iff. eauto.
Qed.

Lemma for_of_stores_first
  (body : list Dto.Convidado) (d : Db) (p : string) (c : Dto.Convidado) :
  healthy d ->
  ~ In p (phones d) ->
  find (fun t => String.eqb (Dto.phone t) p) body = Some c ->
  exists r,
    find (fun x => String.eqb (phone x) p)
      (rows (snd (Async.for_of body registrar d))) = Some r
    /\ r = new_row (mkDb [] (id r) (today d) [] []) (Dto.nome c) p (Dto.presente c)
    /\ serial d <= id r.
Proof.
  revert d. induction body as [|t body IH]; intros d Hd Hp Hc; [discriminate|].
  cbn in Hc.
  destruct (registrar_healthy t d Hd) as [d1 [Hrun [Hd1 [Ht Hcase]]]].
  cbn [Async.for_of]. unfold Async.bind. rewrite Hrun.
  destruct (String.eqb (Dto.phone t) p) eqn:Htp.
  - injection Hc as <-. apply String.eqb_eq in Htp. subst p.
    destruct Hcase as [[[x Hx] _] | [Hx [Hr Hs]]].
    + now rewrite (not_in_phones_find _ _ Hp) in Hx.
    + destruct (for_of_added body d1) as [added [-> _]].
      exists (new_row d (Dto.nome t) (Dto.phone t) (Dto.presente t)).
      split; [|split; [reflexivity | cbn; lia]].
      apply find_app_some. rewrite Hr, (find_app_none _ _ _ Hx).
      cbn. now rewrite String.eqb_refl.
  - assert (Hp1 : ~ In p (phones d1)).
    { unfold phones in *.
      destruct Hcase as [[_ [-> _]] | [_ [-> _]]]; [assumption|].
      rewrite map_app, in_app_iff. cbn. intros [H | [H | []]]; [contradiction|].
      apply String.eqb_neq in Htp. contradiction. }
    destruct (IH d1 Hd1 Hp1 Hc) as [r [Hfind [Hr Hid]]].
    exists r. split; [exact Hfind|]. split; [now rewrite <- Ht|].
    destruct Hcase as [[_ [_ Hs]] | [_ [_ Hs]]]; lia.
Qed.

Lemma take_chars_fits (n : nat) (s : string) :
  (String.length s <= n)%nat -> take_chars n s = (s, EmptyString).
Proof.
  revert n. induction s as [|a s IH]; intros n Hn; [reflexivity|].
  cbn [String.length] in Hn. cbn [take_chars].
  destruct (continuation a).
  - rewrite IH by lia. reflexivity.
  - destruct n as [|m]; [lia|]. rewrite IH by lia. reflexivity.
Qed.

(** A string of at most [n] bytes is kept as it is. *)
Lemma varchar_fits (n : nat) (s : string) :
  (String.length s <= n)%nat -> varchar n s = s.
Proof. intros Hn. unfold varchar. now rewrite take_chars_fits. Qed.

(** X4. For tuples as [Dto.Convidado] has them: when no storage operation
    fails and a phone is not in the table, the guest stored for it is the
    first tuple of the body with that phone. If the name of that tuple
    has at most 100 bytes, the lookup by that phone after the import
    finds a row with that name, with [presente] as the tuple gives it
    (['M'] when the key is left out, [NULL] when it is [null]),
    [confirmed] false, no [updatedAt], today's [createdAt], no companions
    and an id not below the sequence before the import. Later tuples with
    the same phone leave no trace. *)
Theorem registrarConvidados_stores_first
  (body : list Dto.Convidado) (d : Db) (p : string) (c : Dto.Convidado) :
  healthy d ->
  ~ In p (phones d) ->
  find (fun t => String.eqb (Dto.phone t) p) body = Some c ->
  (String.length (Dto.nome c) <= 100)%nat ->
  exists r,
    find (fun x => String.eqb (phone x) p) (rows (snd (registrarConvidados body d)))
    = Some r
    /\ r = mkConvidados (id r) (Some (today d)) None (Dto.nome c) p (Some false)
             (match Dto.presente c with
              | Undefined => Some "M"
              | Null => None
              | Text v => Some v
              end)
             []
    /\ serial d <= id r.
Proof.
  intros Hd Hp Hc Hfits. rewrite registrarConvidados_rows.
  destruct (for_of_stores_first body d p c Hd Hp Hc) as [r [Hfind [Hr Hid]]].
  exists r. split; [exact Hfind|]. split; [|exact Hid].
  rewrite Hr at 1. unfold new_row. cbn [serial today].
  now rewrite (varchar_fits 100 (Dto.nome c) Hfits).
Qed.

Lemma registrar_ids (c : Dto.Convidado) (d : Db) :
  ids_fresh d ->
  ids_fresh (snd (registrar c d)) /\ serial d <= serial (snd (registrar c d)).
Proof.
  unfold ids_fresh. intros [Hnd Hlt].
  destruct (registrar_spec c d); cbn; repeat split; auto; try lia.
  - rewrite map_app. cbn. apply NoDup_snoc; [assumption|].
    intros Hin. apply in_map_iff in Hin as [r [Hid Hr]].
    rewrite Forall_forall in Hlt. specialize (Hlt r Hr). lia.
  - apply Forall_app. split.
    + eapply Forall_impl; [|exact Hlt]. cbn. intros r Hr. lia.
    + constructor; [cbn; lia | constructor].
Qed.

Lemma for_of_ids (body : list Dto.Convidado) (d : Db) :
  ids_fresh d ->
  ids_fresh (snd (Async.for_of body registrar d))
  /\ serial d <= serial (snd (Async.for_of body registrar d)).
Proof.
  revert d. induction body as [|c body IH]; intros d Hd; [split; [exact Hd | cbn; lia]|].
  cbn. unfold Async.bind.
  destruct (registrar_ids c d Hd) as [Hd1 Hs1].
  destruct (registrar c d) as [[e|[]] d1]; cbn in *; [now split|].
  destruct (IH d1 Hd1) as [Hd' Hs']. split; [exact Hd' | lia].
Qed.

Lemma registrarConvidados_ids (body : list Dto.Convidado) (d : Db) :
  ids_fresh d ->
  ids_fresh (snd (registrarConvidados body d))
  /\ serial d <= serial (snd (registrarConvidados body d)).
Proof.
  intros Hd. destruct (for_of_ids body d Hd) as [Hd1 Hs1].
  unfold registrarConvidados, Async.bind.
  destruct (Async.for_of body registrar d) as [[e|[]] d1]; cbn in *; [now split|].
  unfold findMany, query. destruct (fails d1); cbn; now split.
Qed.

(** X5. Ids are given once: in a table whose ids are distinct and below
    the sequence, they stay so through any sequence of bulk imports,
    whatever the storage does, and the sequence never goes back. *)
Theorem bulk_imports_ids (calls : list (list Dto.Convidado)) (d : Db) :
  ids_fresh d ->
  ids_fresh (bulk_imports calls d) /\ serial d <= serial (bulk_imports calls d).
Proof.
  revert d. induction calls as [|body calls IH]; intros d Hd; [split; [exact Hd | cbn; lia]|].
  change (bulk_imports (body :: calls) d)
    with (bulk_imports calls (snd (registrarConvidados body d))).
  destruct (registrarConvidados_ids body d Hd) as [Hd1 Hs1].
  destruct (IH _ Hd1) as [Hd' Hs']. split; [exact Hd' | lia].
Qed.

Lemma for_of_operations (body : list Dto.Convidado) (d d1 : Db) :
  Async.for_of body registrar d = (inr tt, d1) ->
  trace d1 = trace d ++ import_ops (phones d) body.
Proof.
  revert d. induction body as [|c body IH]; intros d Hloop.
  - cbn in Hloop. injection Hloop as <-. cbn. now rewrite app_nil_r.
  - cbn [Async.for_of] in Hloop. unfold Async.bind in Hloop.
    pose proof (registrar_spec c d) as Hc.
    destruct (registrar c d) as [[e|[]] d2]; [discriminate|].
    apply IH in Hloop. rewrite Hloop. cbn [import_ops].
    unfold phones at 2. rewrite existsb_phones.
    inversion Hc as [ | x Hf Hx | | Hf Hx Hf2 ]; subst.
    + rewrite Hx. cbn. now rewrite <- app_assoc.
    + rewrite Hx. unfold phones. cbn. rewrite map_app. cbn.
      now rewrite <- !app_assoc.
Qed.

(** X6. An import that succeeds has sent the storage, after what was
    there and in this order: for each tuple of the body the lookup of its
    phone, followed by the insert of the tuple when that phone is neither
    in the table nor earlier in the body; then the listing. Nothing else
    is sent. *)
Theorem registrarConvidados_operations
  (body : list Dto.Convidado) (d d' : Db) (r : Response) :
  registrarConvidados body d = (inr r, d') ->
  trace d' = trace d ++ import_ops (phones d) body ++ [FindMany].
Proof.
  unfold registrarConvidados, Async.bind. intros Hrun.
  destruct (Async.for_of body registrar d) as [[e|[]] d1] eqn:Hloop; [discriminate|].
  apply for_of_operations in Hloop.
  unfold findMany, query in Hrun. destruct (fails d1); [discriminate|].
  injection Hrun as _ <-. cbn. rewrite Hloop. now rewrite <- app_assoc.
Qed.

End ImportKeeps.

(** ** Imported guests and the broadcast *)

Section ImportedGuests.

Import Prisma.

Lemma find_phone_in (p : string) (body : list Dto.Convidado) (t : Dto.Convidado) :
  In t body -> Dto.phone t = p ->
  exists c, find (fun x => String.eqb (Dto.phone x) p) body = Some c.
Proof.
  intros Ht Hp. destruct (find _ body) as [c|] eqn:Hfind; [now exists c|].
  pose proof (find_none _ _ Hfind t Ht) as Hneq. cbn in Hneq.
  rewrite Hp, String.eqb_refl in Hneq. discriminate.
Qed.

(** C9. Whatever the storage does, the rows a bulk import adds all have
    [confirmed] false, the column default, since [create] is given no
    value for it; so each of them is selected by the lookup of the
    broadcast, and a broadcast run on a table with these rows sets a
    timer for each. And the import does add them: when no storage
    operation fails, every tuple of the body whose phone was not in the
    table has a row among those added, with its phone and [confirmed]
    false, for which a broadcast run right after the import sets a
    timer. *)
Theorem registrarConvidados_unconfirmed (body : list Dto.Convidado) (d : Db) :
  exists added,
    rows (snd (registrarConvidados body d)) = rows d ++ added
    /\ Forall (fun c => confirmed c = Some false) added
    /\ (forall c, In c added ->
          In c (filter (confirmed_is false)
                  (rows (snd (registrarConvidados body d)))))
    /\ (forall c d',
          In c added ->
          rows d' = rows (snd (registrarConvidados body d)) ->
          fails d' = false ->
          In c (map guest (timers (snd (sendConvite_route (mkServer d' []))))))
    /\ (healthy d ->
        forall t,
          In t body ->
          ~ In (Dto.phone t) (phones d) ->
          exists r,
            In r added
            /\ phone r = Dto.phone t
            /\ confirmed r = Some false
            /\ In r (map guest
                       (timers (snd (sendConvite_route
                                       (mkServer (snd (registrarConvidados body d)) [])))))).
Proof.
  destruct (for_of_added body d) as [added [Hrows Hadded]].
  exists added. rewrite registrarConvidados_rows, Hrows.
  assert (Hsel : forall c, In c added ->
                   In c (filter (confirmed_is false) (rows d ++ added))).
  { intros c Hc. apply filter_In. split; [apply in_or_app; now right|].
    apply confirmed_is_false_iff.
    rewrite Forall_forall in Hadded. now apply Hadded. }
  assert (Htimer : forall c d',
             In c added ->
             rows d' = rows d ++ added ->
             fails d' = false ->
             In c (map guest (timers (snd (sendConvite_route (mkServer d' [])))))).
  { intros c d' Hc Hd' Hok.
    rewrite sendConvite_route_spec, Hok. cbn.
    rewrite staggered_guests, Hd'. now apply Hsel. }
  split; [reflexivity|]. split; [assumption|]. split; [assumption|].
  split; [exact Htimer|].
  intros Hd t Ht Hfresh.
  destruct (find_phone_in (Dto.phone t) body t Ht eq_refl) as [c Hc].
  destruct (for_of_stores_first body d (Dto.phone t) c Hd Hfresh Hc)
    as [r [Hfind _]].
  apply find_some in Hfind as [Hin Hphone]. apply String.eqb_eq in Hphone.
  rewrite Hrows in Hin. apply in_app_or in Hin as [Hold | Hnew].
  - destruct Hfresh. unfold phones. apply in_map_iff. eauto.
  - exists r. split; [exact Hnew|]. split; [exact Hphone|].
    split; [rewrite Forall_forall in Hadded; now apply Hadded|].
    apply Htimer; [exact Hnew | |].
    + now rewrite registrarConvidados_rows.
    + apply healthy_fails. now apply registrarConvidados_healthy.
Qed.

End ImportedGuests.

(** ** The report, the import and the broadcast together *)

Section ReportFacts.

Import Prisma.

Lemma confirmados_route_inv (d : Db) (r : Confirmacoes) :
  fst (confirmados_route d) = inr (mkResponse 201 (JsonConfirmacoes r)) ->
  r = mkConfirmacoes
        (Z.of_nat (List.length (rows d)))
        (Z.of_nat (List.length (filter (fun c => truthy (confirmed c)) (rows d))))
        (filter (fun c => truthy (confirmed c)) (rows d)).
Proof.
  unfold confirmados_route, Async.bind, findMany, query.
  destruct (fails d); cbn; [discriminate|]. now intros [= <-].
Qed.

(** X7. In every report the number of confirmed guests lies between 0
    and the number of guests, and it is the length of the list of
    confirmed guests the report carries. *)
Theorem confirmados_bounds (d : Db) (r : Confirmacoes) :
  fst (confirmados_route d) = inr (mkResponse 201 (JsonConfirmacoes r)) ->
  0 <= totalConfirmados r <= totalConvites r
  /\ Z.of_nat (List.length (confirmados r)) = totalConfirmados r.
Proof.
  intros Hr. apply confirmados_route_inv in Hr. subst r. cbn.
  pose proof (filter_length_le (fun c => truthy (confirmed c)) (rows d)).
  lia.
Qed.

Lemma for_of_added_bounded (body : list Dto.Convidado) (d : Db) :
  exists added,
    rows (snd (Async.for_of body registrar d)) = rows d ++ added
    /\ Forall (fun c => confirmed c = Some false) added
    /\ (List.length added <= List.length body)%nat.
Proof.
  revert d. induction body as [|c body IH]; intros d.
  - exists []. cbn. rewrite app_nil_r. repeat split; auto.
  - cbn [Async.for_of]. unfold Async.bind.
    pose proof (registrar_rows c d) as Hc.
    destruct (registrar c d) as [[e|[]] d1]; cbn [snd] in *.
    + destruct Hc as [-> | [_ [r [-> [_ Hr]]]]].
      * exists []. rewrite app_nil_r. repeat split; auto. cbn. lia.
      * exists [r]. repeat split; auto. cbn. lia.
    + destruct (IH d1) as [added [-> [Hadded Hlen]]].
      destruct Hc as [-> | [_ [r [-> [_ Hr]]]]].
      * exists added. repeat split; auto. cbn. lia.
      * exists (r :: added). rewrite <- app_assoc. repeat split; auto. cbn. lia.
Qed.

Lemma filter_unconfirmed_nil (added : list Convidados) :
  Forall (fun c => confirmed c = Some false) added ->
  filter (fun c => truthy (confirmed c)) added = [].
Proof.
  induction 1 as [|c added Hc _ IH]; [reflexivity|].
  cbn. now rewrite Hc.
Qed.

(** X8. An import does not touch the confirmations: a report made after
    it counts and lists the same confirmed guests as a report made before
    it, and its number of guests has grown by at most the number of tuples
    submitted. *)
Theorem confirmados_after_import
  (body : list Dto.Convidado) (d : Db) (before after : Confirmacoes) :
  fst (confirmados_route d) = inr (mkResponse 201 (JsonConfirmacoes before)) ->
  fst (confirmados_route (snd (registrarConvidados body d)))
  = inr (mkResponse 201 (JsonConfirmacoes after)) ->
  totalConfirmados after = totalConfirmados before
  /\ confirmados after = confirmados before
  /\ totalConvites before <= totalConvites after
     <= totalConvites before + Z.of_nat (List.length body).
Proof.
  intros Hb Ha. apply confirmados_route_inv in Hb, Ha. subst before after.
  rewrite registrarConvidados_rows.
  destruct (for_of_added_bounded body d) as [added [-> [Hadded Hlen]]].
  cbn. rewrite filter_app, (filter_unconfirmed_nil added Hadded), app_nil_r.
  rewrite length_app. repeat split; lia.
Qed.

Lemma confirmed_partition (l : list Convidados) :
  (List.length l
   = List.length (filter (fun c => truthy (confirmed c)) l)
     + List.length (filter (confirmed_is false) l)
     + List.length (filter unanswered l))%nat.
Proof.
  induction l as [|c l IH]; [reflexivity|].
  cbn [filter].
  destruct (truthy (confirmed c)) eqn:H1, (confirmed_is false c) eqn:H2,
    (unanswered c) eqn:H3; cbn [List.length]; try lia;
    exfalso; unfold confirmed_is, unanswered in *;
    destruct (confirmed c) as [[|]|]; discriminate.
Qed.

(** X9. The report and the broadcast split the table: a guest the report
    lists as confirmed is given no timer by a broadcast on the same rows,
    and the number of guests is the number of confirmed guests plus the
    number of timers plus the number of guests whose [confirmed] is
    [NULL], who are neither counted as confirmed nor invited. *)
Theorem confirmados_and_targets (d : Db) (r : Confirmacoes) :
  fst (confirmados_route d) = inr (mkResponse 201 (JsonConfirmacoes r)) ->
  let pending := timers (snd (sendConvite_route (mkServer d []))) in
  (forall c, In c (confirmados r) -> ~ In c (map guest pending))
  /\ totalConvites r
     = totalConfirmados r + Z.of_nat (List.length pending)
       + Z.of_nat (List.length (filter unanswered (rows d))).
Proof.
  intros Hr pending.
  assert (Hf : fails d = false).
  { unfold confirmados_route, Async.bind, findMany, query in Hr.
    destruct (fails d); [discriminate | reflexivity]. }
  apply confirmados_route_inv in Hr. subst r.
  assert (Hp : pending = staggered (filter (confirmed_is false) (rows d))).
  { unfold pending. now rewrite sendConvite_route_spec, Hf. }
  rewrite Hp. cbn. split.
  - intros c Hc Hin. rewrite staggered_guests in Hin.
    apply filter_In in Hc as [_ Htrue]. apply filter_In in Hin as [_ Hfalse].
    apply confirmed_is_false_iff in Hfalse. rewrite Hfalse in Htrue. discriminate.
  - assert (Hlen : List.length (staggered (filter (confirmed_is false) (rows d)))
                   = List.length (filter (confirmed_is false) (rows d))).
    { rewrite <- (staggered_guests (filter (confirmed_is false) (rows d))) at 2.
      now rewrite length_map. }
    rewrite Hlen. pose proof (confirmed_partition (rows d)) as Hsplit. lia.
Qed.

End ReportFacts.

(** ** More on the broadcast *)

Section BroadcastMore.

Import Gateway.

Variable BASE_URL : option string.

(** The route on a server with timers pending. *)
Lemma sendConvite_route_at (s : Server) :
  sendConvite_route s
  = if Prisma.fails (db s)
    then (inl (PrismaClientError "convidados.findMany"),
          mkServer (Prisma.sent (Prisma.FindManyConfirmed false) (db s)) (timers s))
    else (inr (mkResponse 201 (JsonMessage "Convites sendo enviados")),
          mkServer (Prisma.sent (Prisma.FindManyConfirmed false) (db s))
            (timers s
             ++ staggered (filter (Prisma.confirmed_is false) (Prisma.rows (db s))))).
Proof.
  unfold sendConvite_route, Async.bind at 1, on_db, Prisma.findMany_confirmed,
    Prisma.query.
  destruct (Prisma.fails (db s)); [reflexivity|]. cbn.
  unfold Async.bind, entries. now rewrite setTimeout_loop.
Qed.

(** X10. The broadcast keeps no record of whom it invited and cancels
    nothing: it leaves the rows of the table as they are, and a second
    request, made while the timers of the first are pending, keeps these
    and sets a timer again for each of the same guests. *)
Theorem sendConvite_route_again (s : Server) :
  Prisma.fails (db s) = false ->
  Prisma.fails (db (snd (sendConvite_route s))) = false ->
  let invited := staggered (filter (Prisma.confirmed_is false) (Prisma.rows (db s))) in
  timers (snd (sendConvite_route s)) = timers s ++ invited
  /\ timers (snd (sendConvite_route (snd (sendConvite_route s))))
     = timers s ++ invited ++ invited
  /\ Prisma.rows (db (snd (sendConvite_route (snd (sendConvite_route s)))))
     = Prisma.rows (db s).
Proof.
  intros H1 H2 invited.
  rewrite (sendConvite_route_at (snd (sendConvite_route s))), H2.
  rewrite (sendConvite_route_at s), H1 in *. cbn.
  split; [reflexivity|]. split; [|reflexivity]. now rewrite <- app_assoc.
Qed.

Lemma calls_of_addressed (c : Prisma.Convidados) :
  Forall (fun f => method f = "POST" /\ number_of f = Some (Prisma.phone c))
    (calls_of BASE_URL c).
Proof. repeat constructor. Qed.

(** X11. Whatever the gateway does, a broadcast over [n] unconfirmed
    guests makes [2 * n] gateway calls, each a POST addressed to the phone
    of a guest whose [confirmed] is false: the failure of a call stops
    neither the second call of that guest nor the calls of the guests
    after. *)
Theorem broadcast_calls (d : Prisma.Db) (n : Net) :
  Prisma.fails d = false ->
  exists calls,
    outbox (snd (broadcast BASE_URL d n)) = outbox n ++ calls
    /\ List.length calls
       = (2 * List.length (filter (Prisma.confirmed_is false) (Prisma.rows d)))%nat
    /\ Forall (fun f =>
                 method f = "POST"
                 /\ exists c, In c (Prisma.rows d)
                              /\ Prisma.confirmed c = Some false
                              /\ number_of f = Some (Prisma.phone c))
         calls.
Proof.
  intros Hd. rewrite broadcast_spec by assumption. cbn [snd].
  rewrite run_timers_outbox. eexists. split; [reflexivity|].
  induction (Prisma.rows d) as [|c l IH]; [split; [reflexivity | constructor]|].
  cbn [filter]. destruct (Prisma.confirmed_is false c) eqn:Hc.
  - destruct IH as [Hlen Hall]. cbn [flat_map]. split.
    + rewrite length_app, Hlen. cbn. lia.
    + apply Forall_app. split.
      * eapply Forall_impl; [|apply calls_of_addressed].
        cbn. intros f [Hm Hn]. split; [exact Hm|]. exists c.
        split; [now left|]. split; [now apply confirmed_is_false_iff | exact Hn].
      * eapply Forall_impl; [|exact Hall].
        cbn. intros f [Hm [c' [Hin Hrest]]]. split; [exact Hm|].
        exists c'. split; [now right | exact Hrest].
  - destruct IH as [Hlen Hall]. split; [exact Hlen|].
    eapply Forall_impl; [|exact Hall].
    cbn. intros f [Hm [c' [Hin Hrest]]]. split; [exact Hm|].
    exists c'. split; [now right | exact Hrest].
Qed.

Lemma reply_at_after (k : nat) (o : list Fetch) (n : Net) (log : list Exception) :
  reply_at k (mkNet o (tl (tl (replies n))) log) = reply_at (2 + k) n.
Proof.
  unfold reply_at. cbn [replies].
  destruct (replies n) as [|o1 [|o2 rest]]; cbn; now destruct k.
Qed.

Lemma fire_all_console (queue : list Timer) (n : Net) :
  console (fold_left (fun n t => fire BASE_URL t n) queue n)
  = console n
    ++ flat_map printed
         (map (fun k => reply_at k n) (seq 0 (2 * List.length queue))).
Proof.
  revert n. induction queue as [|t queue IH]; intros n.
  - cbn. now rewrite app_nil_r.
  - cbn [fold_left]. rewrite IH. unfold fire. rewrite sendConvite_spec.
    cbn [snd console].
    replace (2 * List.length (t :: queue))%nat
      with (S (S (2 * List.length queue))) by (cbn [List.length]; lia).
    cbn [seq map flat_map]. rewrite <- !app_assoc. do 3 f_equal.
    rewrite <- (seq_shift _ 1), <- (seq_shift _ 0), !map_map.
    f_equal. apply map_ext. intros k. apply reply_at_after.
Qed.

End BroadcastMore.

(** X12. With [BASE_URL] set, what a broadcast over [n] unconfirmed
    guests prints with [console.error] is one error for each of its
    [2 * n] gateway calls that rejects, and nothing for a call answered
    in JSON: the errors printed are, in some order, those of the outcomes
    of these calls. The order is left open: it is the order in which the
    calls settle. *)
Theorem broadcast_console (u : string) (d : Prisma.Db) (n : Gateway.Net) :
  Prisma.fails d = false ->
  exists errors,
    Gateway.console (snd (broadcast (Some u) d n)) = Gateway.console n ++ errors
    /\ Permutation errors
         (flat_map printed
            (map (fun k => reply_at k n)
               (seq 0 (2 * List.length
                             (filter (Prisma.confirmed_is false) (Prisma.rows d)))))).
Proof.
  intros Hd. rewrite broadcast_spec by assumption. cbn [snd].
  unfold run_timers. rewrite fire_order_sorted by apply staggered_from_sorted.
  rewrite fire_all_console. eexists. split; [reflexivity|].
  replace (List.length (staggered (filter (Prisma.confirmed_is false) (Prisma.rows d))))
    with (List.length (filter (Prisma.confirmed_is false) (Prisma.rows d))).
  - apply Permutation_refl.
  - rewrite <- (staggered_guests (filter _ _)) at 1. now rewrite length_map.
Qed.

(** ** More on the file routes *)

Section MediaFileMore.

Variable World : Type.
Variable Reply : Type.
Variable guards : list (Middleware World).
Variable uploadFile_single : Middleware World.
Variable sendMediaFile : Request -> Async.M World Exception Reply.
Variable sendWhatsAppAudioFile : Request -> Async.M World Exception Reply.

(** X13. A request that [validateMedia] lets through had a file in the
    [attachment] field; it goes on with the same file and in the same
    world, and with a [presence] that is not the empty string: an empty
    one has become [undefined], any other is kept. *)
Theorem validateMedia_passes (req req' : Request) (w w' : World) :
  validateMedia World req w = (inr req', w') ->
  w' = w
  /\ file req' = file req
  /\ (exists f, file req = Some f /\ fieldname f = "attachment")
  /\ presence req' <> Some ""
  /\ (isEmpty (presence req) = true /\ presence req' = None
      \/ isEmpty (presence req) = false /\ presence req' = presence req).
Proof.
  unfold validateMedia. destruct (file req) as [f|] eqn:Hfile; [|discriminate].
  destruct (String.eqb (fieldname f) "attachment") eqn:Hf; [|discriminate].
  apply String.eqb_eq in Hf. cbn.
  destruct (isEmpty (presence req)) eqn:He; intros [= <- <-]; cbn.
  - repeat split; eauto. discriminate.
  - repeat split; eauto.
    intros Hp. rewrite Hp in He. discriminate.
Qed.

(** X14. [validateMedia] changes nothing the second time: a request it
    has let through passes again, as it is. *)
Theorem validateMedia_idempotent (req req' : Request) (w w' : World) :
  validateMedia World req w = (inr req', w') ->
  validateMedia World req' w' = (inr req', w').
Proof.
  intros Hrun. destruct (validateMedia_passes req req' w w' Hrun)
    as [_ [Hfile [[f [Hf Hname]] [_ Hp]]]].
  unfold validateMedia. rewrite Hfile, Hf, Hname. cbn.
  destruct Hp as [[_ Hp] | [He Hp]]; rewrite Hp.
  - cbn. destruct req' as [file' presence']. cbn in *.
    unfold Async.ret. congruence.
  - now rewrite He.
Qed.

(** X15. When the guards and multer pass the request on with a file in
    the [attachment] field, each file route runs its last handler on that
    request with its [presence] normalised, and answers 201 with what the
    handler returns; an error of the handler is the error of the route. *)
Theorem file_routes_accept
  (req req1 : Request) (f : UploadedFile) (w w1 : World) :
  chain World (guards ++ [uploadFile_single]) req w = (inr req1, w1) ->
  file req1 = Some f ->
  fieldname f = "attachment" ->
  sendMediaFile_route World Reply guards uploadFile_single sendMediaFile req w
  = (response <- sendMediaFile (normalised req1) ;;
     Async.ret (HttpStatus.CREATED, response)) w1
  /\ sendWhatsAppAudioFile_route World Reply guards uploadFile_single
       sendWhatsAppAudioFile req w
     = (response <- sendWhatsAppAudioFile (normalised req1) ;;
        Async.ret (HttpStatus.CREATED, response)) w1.
Proof.
  intros Hup Hfile Hname.
  assert (Hchain : chain World (guards ++ [uploadFile_single; validateMedia World]) req w
                   = (inr (normalised req1), w1)).
  { replace (guards ++ [uploadFile_single; validateMedia World])
      with ((guards ++ [uploadFile_single]) ++ [validateMedia World])
      by now rewrite <- app_assoc.
    rewrite chain_app. unfold Async.bind at 1. rewrite Hup.
    cbn. unfold Async.bind.
    rewrite (validateMedia_valid World req1 f w1 Hfile Hname). reflexivity. }
  unfold sendMediaFile_route, sendWhatsAppAudioFile_route, Async.bind.
  rewrite Hchain. split; reflexivity.
Qed.

(** X16. An error thrown by a guard or by multer is the error of both
    file routes, in the world that handler left: neither [validateMedia]
    nor the last handler runs after it. *)
Theorem file_routes_upstream_error
  (req : Request) (e : Exception) (w w1 : World) :
  chain World (guards ++ [uploadFile_single]) req w = (inl e, w1) ->
  sendMediaFile_route World Reply guards uploadFile_single sendMediaFile req w
  = (inl e, w1)
  /\ sendWhatsAppAudioFile_route World Reply guards uploadFile_single
       sendWhatsAppAudioFile req w
     = (inl e, w1).
Proof.
  intros Hup.
  assert (Hchain : chain World (guards ++ [uploadFile_single; validateMedia World]) req w
                   = (inl e, w1)).
  { replace (guards ++ [uploadFile_single; validateMedia World])
      with ((guards ++ [uploadFile_single]) ++ [validateMedia World])
      by now rewrite <- app_assoc.
    rewrite chain_app. unfold Async.bind at 1. now rewrite Hup. }
  unfold sendMediaFile_route, sendWhatsAppAudioFile_route.
  unfold Async.bind at 1 3. now rewrite Hchain.
Qed.

End MediaFileMore.

(** ** More on the buttons *)

Section ButtonsMore.

Variable World : Type.
Variables Instance Data Button Props Reply : Type.
Variable new_SendButtonsDto : Data -> Exception + Props.
Variable buttons : Props -> list Button.
Variable validate : Button -> option string.
Variable sendButtons : Instance -> Props -> Async.M World Exception Reply.

(** X17. Whatever the constructor, the buttons and the controller are,
    the [execute] callback of [sendButtons] does one of three things: it
    rejects with a [BadRequestException] carrying the message of the
    error the constructor threw, or with one carrying the message of a
    button's validation error, in both cases leaving the world as it was;
    or it is the controller's call on a DTO all of whose buttons have
    passed [validate]. The controller never receives a DTO with an
    invalid button, and nothing but a [BadRequestException] comes out
    before the controller runs. *)
Theorem sendButtons_execute_outcomes
  (instance : Instance) (data : Data) (w : World) :
  (exists e,
     new_SendButtonsDto data = inl e
     /\ sendButtons_execute World Instance Data Button Props Reply
          new_SendButtonsDto buttons validate sendButtons instance data w
        = (inl (BadRequestException (message_of e)), w))
  \/ (exists props b message,
        new_SendButtonsDto data = inr props
        /\ In b (buttons props)
        /\ validate b = Some message
        /\ sendButtons_execute World Instance Data Button Props Reply
             new_SendButtonsDto buttons validate sendButtons instance data w
           = (inl (BadRequestException message), w))
  \/ (exists props,
        new_SendButtonsDto data = inr props
        /\ Forall (fun b => validate b = None) (buttons props)
        /\ sendButtons_execute World Instance Data Button Props Reply
             new_SendButtonsDto buttons validate sendButtons instance data w
           = sendButtons instance props w).
Proof.
  destruct (new_SendButtonsDto data) as [e|props] eqn:Hnew.
  - left. exists e. split; [reflexivity|].
    now apply sendButtons_execute_constructor.
  - right.
    unfold sendButtons_execute, Async.try_catch, Async.catch, Async.bind.
    rewrite Hnew. cbv beta iota.
    destruct (validate_buttons_spec World Button validate (buttons props) w)
      as [[Hall Hrun] | [before [b [after [message [Hsplit [_ [Hb Hrun]]]]]]]];
      rewrite Hrun; cbn.
    + right. now exists props.
    + left. exists props, b, message. repeat split; auto.
      rewrite Hsplit. apply in_or_app. right. now left.
Qed.

End ButtonsMore.

(** ** Imports in one request or in two *)

Section ImportSplit.

Import Prisma.

Lemma for_of_same_table (body : list Dto.Convidado) (d e : Db) :
  healthy d -> healthy e ->
  rows d = rows e -> serial d = serial e -> today d = today e ->
  rows (snd (Async.for_of body registrar d))
  = rows (snd (Async.for_of body registrar e)).
Proof.
  revert d e. induction body as [|c body IH]; intros d e Hd He Hr Hs Ht; [exact Hr|].
  destruct (registrar_healthy c d Hd) as [d1 [Hrund [Hd1 [Htd Hcased]]]].
  destruct (registrar_healthy c e He) as [e1 [Hrune [He1 [Hte Hcasee]]]].
  cbn [Async.for_of]. unfold Async.bind. rewrite Hrund, Hrune.
  rewrite <- Hr in Hcasee.
  apply IH; try assumption; try congruence.
  - destruct Hcased as [[[x Hx] [Hrd _]] | [Hx [Hrd _]]],
      Hcasee as [[[y Hy] [Hre _]] | [Hy [Hre _]]]; try congruence.
    rewrite Hrd, Hre. unfold new_row. now rewrite Hs, Ht.
  - destruct Hcased as [[[x Hx] [_ Hsd]] | [Hx [_ Hsd]]],
      Hcasee as [[[y Hy] [_ Hse]] | [Hy [_ Hse]]]; congruence.
Qed.

(** X18. When no storage operation fails, sending two bodies in two
    requests, one after the other, leaves the same rows as sending them
    in one request, the second body after the first. *)
Theorem bulk_imports_split (first second : list Dto.Convidado) (d : Db) :
  healthy d ->
  rows (bulk_imports [first; second] d)
  = rows (bulk_imports [first ++ second] d).
Proof.
  intros Hd.
  change (bulk_imports [first; second] d)
    with (snd (registrarConvidados second (snd (registrarConvidados first d)))).
  change (bulk_imports [first ++ second] d)
    with (snd (registrarConvidados (first ++ second) d)).
  rewrite !registrarConvidados_rows, for_of_app.
  destruct (for_of_healthy first d Hd) as [d1 [Hloop [Hd1 _]]].
  unfold Async.bind at 1. rewrite Hloop.
  assert (Hfirst : snd (registrarConvidados first d) = sent FindMany d1).
  { unfold registrarConvidados, Async.bind. rewrite Hloop.
    unfold findMany, query. now rewrite (healthy_fails d1 Hd1). }
  rewrite Hfirst. apply for_of_same_table; auto using healthy_sent.
Qed.

End ImportSplit.

(** * The further properties at sample inputs *)

Section MoreSamples.

Import Sample Cases.

Lemma healthy_empty : healthy Prisma.empty.
Proof. constructor. Defined.

(** Ana and Bia go into an empty table; on the flaky storage the import
    is rejected with the storage's error. *)
Lemma registrarConvidados_succeeds_sample :
  healthy Prisma.empty
  /\ (exists d',
        registrarConvidados [ana; bia] Prisma.empty
        = (inr (mkResponse 201 (JsonConvidados (Prisma.rows d'))), d'))
  /\ exists message,
       PrismaClientError "convidados.findFirst" = PrismaClientError message.
Proof.
  split; [exact healthy_empty|]. split.
  - destruct (proj1 (registrarConvidados_succeeds [ana; bia] Prisma.empty)
                healthy_empty) as [d' [Hrun _]].
    exists d'. exact Hrun.
  - exact (proj1 (proj2 (registrarConvidados_succeeds [ana; bia] flaky)
                    _ _ eq_refl)).
Defined.

(** Ana twice, under two names, then Bia, then Ana: two phones. *)
Lemma registrarConvidados_phones_sample :
  healthy Prisma.empty
  /\ Prisma.phones (snd (registrarConvidados [ana; ana_again; bia; ana] Prisma.empty))
     = ["+5511999999999"; "+5521988887777"].
Proof.
  split; [exact healthy_empty|].
  exact (registrarConvidados_phones [ana; ana_again; bia; ana] Prisma.empty
           healthy_empty).
Defined.

(** Ana's phone submitted under another name: the table keeps Ana. *)
Lemma registrarConvidados_lookup_stable_sample :
  option_map Prisma.nome
    (find (fun c => String.eqb (Prisma.phone c) "+5511999999999")
       (Prisma.rows (snd (registrarConvidados [ana_again] table))))
  = Some "Ana".
Proof.
  rewrite (registrarConvidados_lookup_stable [ana_again] table "+5511999999999"
             (Prisma.mkConvidados 1 (Some 0) None "Ana" "+5511999999999"
                (Some false) (Some "S") [])
             eq_refl).
  reflexivity.
Defined.

(** Of two tuples with Ana's phone the first is stored. *)
Lemma registrarConvidados_stores_first_sample :
  exists r,
    find (fun x => String.eqb (Prisma.phone x) "+5511999999999")
      (Prisma.rows (snd (registrarConvidados [bia; ana; ana_again] Prisma.empty)))
    = Some r
    /\ Prisma.nome r = "Ana"
    /\ Prisma.presente r = Some "S".
Proof.
  assert (Hfits : (String.length (Dto.nome ana) <= 100)%nat) by (cbn; lia).
  destruct (registrarConvidados_stores_first [bia; ana; ana_again] Prisma.empty
              "+5511999999999" ana healthy_empty (fun H => H) eq_refl Hfits)
    as [r [Hfind [Hr _]]].
  exists r. split; [exact Hfind|]. rewrite Hr. split; reflexivity.
Defined.

Lemma ids_fresh_table : ids_fresh table.
Proof.
  split.
  - repeat constructor; cbn; intuition discriminate.
  - repeat constructor.
Defined.

(** Ana and Bia imported into an empty table: each has a row among those
    added, unconfirmed, for which the broadcast sets a timer. *)
Lemma registrarConvidados_unconfirmed_sample :
  healthy Prisma.empty
  /\ exists added r,
       Prisma.rows (snd (registrarConvidados [ana; bia] Prisma.empty))
       = Prisma.rows Prisma.empty ++ added
       /\ In r added
       /\ Prisma.phone r = "+5511999999999"
       /\ Prisma.confirmed r = Some false
       /\ In r (map guest
                  (timers (snd (sendConvite_route
                                  (mkServer (snd (registrarConvidados [ana; bia] Prisma.empty))
                                     []))))).
Proof.
  split; [exact healthy_empty|].
  destruct (registrarConvidados_unconfirmed [ana; bia] Prisma.empty)
    as [added [Hrows [_ [_ [_ Hfresh]]]]].
  destruct (Hfresh healthy_empty ana (or_introl eq_refl) (fun H => H))
    as [r [Hin [Hphone [Hconf Htimer]]]].
  exists added, r. split; [exact Hrows|]. split; [exact Hin|].
  split; [exact Hphone|]. split; [exact Hconf | exact Htimer].
Defined.

(** The ids of the sample table stay apart through two imports. *)
Lemma bulk_imports_ids_sample :
  ids_fresh table
  /\ ids_fresh (bulk_imports [[ana; bia]; [ana_again]] table).
Proof.
  split; [exact ids_fresh_table|].
  exact (proj1 (bulk_imports_ids [[ana; bia]; [ana_again]] table ids_fresh_table)).
Defined.

(** Ana, Ana under another name, Bia: three lookups, two inserts, the
    listing. *)
Lemma registrarConvidados_operations_sample :
  Prisma.trace (snd (registrarConvidados [ana; ana_again; bia] Prisma.empty))
  = [Prisma.FindFirstPhone "+5511999999999";
     Prisma.Create "Ana" "+5511999999999" (Text "S");
     Prisma.FindFirstPhone "+5511999999999";
     Prisma.FindFirstPhone "+5521988887777";
     Prisma.Create "Bia" "+5521988887777" Undefined;
     Prisma.FindMany].
Proof.
  exact (registrarConvidados_operations [ana; ana_again; bia] Prisma.empty _ _ eq_refl).
Defined.

(** The report of the sample table: one confirmed guest out of four. *)
Lemma confirmados_bounds_sample :
  exists r,
    fst (confirmados_route table) = inr (mkResponse 201 (JsonConfirmacoes r))
    /\ 0 <= totalConfirmados r <= totalConvites r
    /\ Z.of_nat (List.length (confirmados r)) = totalConfirmados r.
Proof.
  eexists. split; [reflexivity|].
  exact (confirmados_bounds table _ eq_refl).
Defined.

(** Importing a known and a new guest into the sample table. *)
Lemma confirmados_after_import_sample :
  exists before after,
    fst (confirmados_route table) = inr (mkResponse 201 (JsonConfirmacoes before))
    /\ fst (confirmados_route (snd (registrarConvidados [caio; ana_again] table)))
       = inr (mkResponse 201 (JsonConfirmacoes after))
    /\ totalConfirmados after = totalConfirmados before
    /\ confirmados after = confirmados before.
Proof.
  eexists. eexists. split; [reflexivity|]. split; [reflexivity|].
  destruct (confirmados_after_import [caio; ana_again] table _ _ eq_refl eq_refl)
    as [Htotal [Hlist _]].
  split; [exact Htotal | exact Hlist].
Defined.

(** The sample table: four guests, one confirmed, two invited, one
    unanswered. *)
Lemma confirmados_and_targets_sample :
  exists r,
    fst (confirmados_route table) = inr (mkResponse 201 (JsonConfirmacoes r))
    /\ totalConvites r
       = totalConfirmados r
         + Z.of_nat (List.length (timers (snd (sendConvite_route (mkServer table [])))))
         + Z.of_nat (List.length (filter unanswered (Prisma.rows table))).
Proof.
  eexists. split; [reflexivity|].
  exact (proj2 (confirmados_and_targets table _ eq_refl)).
Defined.

(** Two requests in a row on the sample table: Ana and Duda twice. *)
Lemma sendConvite_route_again_sample :
  map (fun t => Prisma.nome (guest t))
    (timers (snd (sendConvite_route (snd (sendConvite_route (mkServer table []))))))
  = ["Ana"; "Duda"; "Ana"; "Duda"].
Proof.
  rewrite (proj1 (proj2 (sendConvite_route_again (mkServer table []) eq_refl eq_refl))).
  reflexivity.
Defined.

(** Four calls on the sample table, with a gateway that fails. *)
Lemma broadcast_calls_sample :
  exists calls,
    Gateway.outbox (snd (broadcast None table bad_gateway))
    = Gateway.outbox bad_gateway ++ calls
    /\ List.length calls = 4%nat.
Proof.
  destruct (broadcast_calls None table bad_gateway eq_refl) as [calls [Hout [Hlen _]]].
  exists calls. split; [exact Hout | exact Hlen].
Defined.

(** The two failures of the gateway are printed. *)
Lemma broadcast_console_sample :
  exists errors,
    Gateway.console (snd (broadcast base table bad_gateway))
    = Gateway.console bad_gateway ++ errors
    /\ Permutation errors
         [FetchError "ECONNREFUSED"; FetchError "Unexpected token in JSON"].
Proof.
  destruct (broadcast_console "http://localhost:8080" table bad_gateway eq_refl)
    as [errors [Hlog Hperm]].
  exists errors. split; [exact Hlog | exact Hperm].
Defined.

(** An upload in the expected field with an empty [presence]. *)
Lemma validateMedia_passes_sample :
  exists req',
    validateMedia Gateway.Net upload_ok Gateway.quiet = (inr req', Gateway.quiet)
    /\ file req' = file upload_ok
    /\ presence req' <> Some "".
Proof.
  eexists. split; [reflexivity|].
  destruct (validateMedia_passes Gateway.Net upload_ok _ Gateway.quiet _ eq_refl)
    as [_ [Hfile [_ [Hp _]]]].
  split; [exact Hfile | exact Hp].
Defined.

Lemma validateMedia_idempotent_sample :
  validateMedia Gateway.Net (normalised upload_ok) Gateway.quiet
  = (inr (normalised upload_ok), Gateway.quiet).
Proof.
  exact (validateMedia_idempotent Gateway.Net upload_ok (normalised upload_ok)
           Gateway.quiet Gateway.quiet eq_refl).
Defined.

Lemma file_routes_accept_sample :
  sendMediaFile_route Gateway.Net (option Gateway.Json) [] upload sendFile
    upload_ok Gateway.quiet
  = (response <- sendFile (normalised upload_ok) ;;
     Async.ret (HttpStatus.CREATED, response)) Gateway.quiet.
Proof.
  exact (proj1 (file_routes_accept Gateway.Net (option Gateway.Json) [] upload
                  sendFile sendFile upload_ok upload_ok
                  (mkUploadedFile "attachment" "convite.png")
                  Gateway.quiet Gateway.quiet eq_refl eq_refl eq_refl)).
Defined.

(** A guard that refuses: the upload is not looked at. *)
Lemma file_routes_upstream_error_sample :
  sendMediaFile_route Gateway.Net (option Gateway.Json) [deny] upload sendFile
    upload_ok Gateway.quiet
  = (inl (ThrownError "Unauthorized"), Gateway.quiet).
Proof.
  exact (proj1 (file_routes_upstream_error Gateway.Net (option Gateway.Json) [deny]
                  upload sendFile sendFile upload_ok (ThrownError "Unauthorized")
                  Gateway.quiet Gateway.quiet eq_refl)).
Defined.

(** Ana and Bia, then Ana again and Caio, in two requests or in one. *)
Lemma bulk_imports_split_sample :
  healthy Prisma.empty
  /\ Prisma.rows (bulk_imports [[ana; bia]; [ana_again; caio]] Prisma.empty)
     = Prisma.rows (bulk_imports [[ana; bia] ++ [ana_again; caio]] Prisma.empty).
Proof.
  split; [exact healthy_empty|].
  exact (bulk_imports_split [ana; bia] [ana_again; caio] Prisma.empty healthy_empty).
Defined.

End MoreSamples.
